(** * 3DAIGC-API: mesh retopology and UV unwrapping models, the client's
      image upload, and the VRAM ledger

    A shallow embedding of [core/models/retopo_models.py],
    [core/models/uv_models.py] and of the client script
    [generate_3d_hunyuan.py], together with the small part of Python and of
    its libraries that they rely on (dictionaries of dynamically typed
    values, [str] methods, [pathlib.PurePosixPath] and [Path.exists],
    exceptions, binary64 floats, Pillow's [resize] and JPEG writer), and a
    model of the GPU resource tracker as the design document describes
    it. *)

From Stdlib Require Import ZArith String Ascii List Floats Uint63.
From stdpp Require Import gmap strings list fin_maps.

Local Open Scope string_scope.
Local Open Scope Z_scope.

(** ** Python values *)

Module Py.

(** The values that travel through an [inputs] / result mapping
    ([Dict[str, Any]]).  A [str] is held as the bytes of its UTF-8
    encoding. *)
#[warnings="-register-all"]
Inductive value : Type :=
| VNone
| VBool (b : bool)
| VInt (n : Z)
| VFloat (f : float)
| VStr (s : string)
| VList (l : list value)
| VDict (d : gmap string value).

Abbreviation dict := (gmap string value).

(** Truth value of an object, as tested by [or], [if] and [not]. *)
Definition truthy (v : value) : bool :=
  match v with
  | VNone => false
  | VBool b => b
  | VInt n => negb (n =? 0)
  | VFloat f => negb (PrimFloat.eqb f 0%float)
  | VStr s => negb (String.eqb s "")
  | VList l => match l with [] => false | _ => true end
  | VDict d => negb (bool_decide (d = ∅))
  end.

(** [a or b] *)
Definition or_ (a b : value) : value := if truthy a then a else b.


(** [d.get(key, default)] *)
Definition get (d : dict) (key : string) (default : value) : value :=
  match d !! key with Some v => v | None => default end.

(** [x in l] for a list [l] of [str]: only a [str] compares equal to a
    [str]. *)
Definition in_str_list (x : value) (l : list string) : bool :=
  match x with
  | VStr s => existsb (String.eqb s) l
  | _ => false
  end.

(** [a or b] on optional lists, as used for constructor defaults: [None]
    and the empty list are both falsy. *)
Definition list_or {A} (a : option (list A)) (b : list A) : list A :=
  match a with
  | Some (x :: l) => x :: l
  | _ => b
  end.

Definition of_option_int (o : option Z) : value :=
  match o with Some n => VInt n | None => VNone end.

Definition of_str_list (l : list string) : value := VList (map VStr l).

(** *** [str] methods *)

(** A [str] is held as the bytes of its UTF-8 encoding: the ASCII characters
    (the dot and the slash among them) are single bytes and occur nowhere
    else, so splitting at a slash, finding the last dot and stripping dots
    work on the bytes as they do on the characters. *)

Definition lower_ascii (c : ascii) : ascii :=
  let n := nat_of_ascii c in
  if ((65 <=? n) && (n <=? 90))%nat then ascii_of_nat (n + 32) else c.

(** Lowering the ASCII letters of a text. *)
Fixpoint lower_ascii_text (s : string) : string :=
  match s with
  | EmptyString => EmptyString
  | String c s' => String (lower_ascii c) (lower_ascii_text s')
  end.

(** The text is made of ASCII characters only. *)
Fixpoint is_ascii_text (s : string) : bool :=
  match s with
  | EmptyString => true
  | String c s' => (nat_of_ascii c <? 128)%nat && is_ascii_text s'
  end.

(** [s.lstrip(c)] for a single character [c] *)
Fixpoint lstrip (c : ascii) (s : string) : string :=
  match s with
  | String a s' => if Ascii.eqb a c then lstrip c s' else s
  | EmptyString => EmptyString
  end.

(** [s.lower()] follows the case mappings of the Unicode database, which
    are not reproduced here: the mapping is a parameter.  What is used of it
    is what it does to ASCII text, that it leaves a leading dot in place and
    that it puts no dot in front of a text that has none. *)
Class CaseMapping : Type := {
  lower : string → string;
  lower_ascii_only s : is_ascii_text s = true → lower s = lower_ascii_text s;
  lower_leading_dot s : lower (String "."%char s) = String "."%char (lower s);
  lower_no_leading_dot c s :
    c ≠ "."%char → lstrip "."%char (lower (String c s)) = lower (String c s)
}.

(** The mapping that lowers the ASCII letters and keeps every other byte:
    what [str.lower()] does on ASCII text, where the examples are
    evaluated. *)
#[refine] Definition ascii_case : CaseMapping := {| lower := lower_ascii_text |}.
Proof.
  - done.
  - done.
  - intros c s Hc. simpl.
    destruct c as [[] [] [] [] [] [] [] []]; done.
Defined.

(** [s.rfind(c)]: index of the last occurrence, or [-1] *)
Fixpoint rfind (c : ascii) (s : string) : Z :=
  match s with
  | EmptyString => -1
  | String a s' =>
      let r := rfind c s' in
      if 0 <=? r then r + 1 else if Ascii.eqb a c then 0 else -1
  end.

(** [s.split(c)] *)
Fixpoint split (c : ascii) (s : string) : list string :=
  match s with
  | EmptyString => [EmptyString]
  | String a s' =>
      if Ascii.eqb a c then EmptyString :: split c s'
      else match split c s' with
           | h :: t => String a h :: t
           | [] => [String a EmptyString]
           end
  end.

(** [c.join(l)] *)
Fixpoint join (sep : string) (l : list string) : string :=
  match l with
  | [] => EmptyString
  | [x] => x
  | x :: l' => x ++ sep ++ join sep l'
  end.

Definition len (s : string) : Z := Z.of_nat (String.length s).

(** [s[i:]] and [s[:i]] for [0 <= i] *)
Definition slice_from (s : string) (i : Z) : string :=
  substring (Z.to_nat i) (String.length s - Z.to_nat i) s.
Definition slice_to (s : string) (i : Z) : string :=
  substring 0 (Z.to_nat i) s.

(** *** Exceptions *)

(** What a [ValueError] raised by the models reports; the rendered message
    is kept in structured form. *)
Inductive value_error : Type :=
| mesh_path_required
| unsupported_input_format (input_format : string) (supported : list string)
| unsupported_output_format (output_format : value).

Inductive exn : Type :=
| ValueError (e : value_error)
| FileNotFoundError (path : string)
| OSError (errno : Z)
| TypeError.

(** A computation that returns or raises. *)
Definition M (A : Type) : Type := exn + A.
Definition raise {A} (e : exn) : M A := inl e.
#[global] Instance M_ret : MRet M := λ A a, inr a.
#[global] Instance M_bind : MBind M :=
  λ A B k m, match m with inl e => inl e | inr a => k a end.

End Py.

(** ** [pathlib] (POSIX flavour) *)

Module pathlib.
Import Py.

(** A parsed path: the root (["", "/" or "//"]) and the components after
    it.  [suffix] and [stem] are those of Python 3.8 to 3.13, where a name
    that ends in a dot has no suffix. *)
Record Path : Type := { root : string; names : list string }.

Definition sep : ascii := "/"%char.
Definition dot : ascii := "."%char.

(** [splitroot]: exactly two leading slashes are kept as ["//"], any other
    number collapses to ["/"]. *)
Definition splitroot (part : string) : string * string :=
  match part with
  | String a _ =>
      if Ascii.eqb a sep then
        let stripped := lstrip sep part in
        if len part - len stripped =? 2 then ("//", stripped)
        else ("/", stripped)
      else ("", part)
  | EmptyString => ("", part)
  end.

Definition is_component (x : string) : bool :=
  negb (String.eqb x "") && negb (String.eqb x ".").

(** [Path(s)] for a string [s] *)
Definition parse (s : string) : Path :=
  let '(r, rel) := splitroot s in
  {| root := r; names := filter (λ x, is_component x = true) (split sep rel) |}.

(** [Path(v)]: anything but a [str] is refused. *)
Definition of_value (v : value) : M Path :=
  match v with
  | VStr s => mret (parse s)
  | _ => raise TypeError
  end.

(** [str(p)] *)
Definition str (p : Path) : string :=
  let s := root p ++ join "/" (names p) in
  if String.eqb s "" then "." else s.

(** [p.name] *)
Definition name (p : Path) : string := List.last (names p) "".

(** [p.suffix] *)
Definition suffix (p : Path) : string :=
  let n := name p in
  let i := rfind dot n in
  if (0 <? i) && (i <? len n - 1) then slice_from n i else "".

(** [p.stem] *)
Definition stem (p : Path) : string :=
  let n := name p in
  let i := rfind dot n in
  if (0 <? i) && (i <? len n - 1) then slice_to n i else n.

(** [p.parent] *)
Definition parent (p : Path) : Path :=
  {| root := root p; names := removelast (names p) |}.

(** [p / key] for a string [key] *)
Definition truediv (p : Path) (key : string) : Path :=
  let q := parse key in
  if negb (String.eqb (root q) "") then q
  else {| root := root p; names := (names p ++ names q)%list |}.

(** The file system is seen through [os.stat]: the call succeeds, fails
    because there is no such entry ([ENOENT], [ENOTDIR], [EBADF], [ELOOP], or
    a path that cannot be encoded), or fails with another [OSError]
    ([ENAMETOOLONG], [EACCES], ...). *)
Inductive stat_result : Type :=
| Exists
| Missing
| Fails (errno : Z).

Definition filesystem : Type := string → stat_result.

(** [p.exists()] (Python 3.8 to 3.13): [False] for a missing entry, while
    any other [OSError] of [stat] is raised again. *)
Definition exists_ (fs : filesystem) (p : Path) : M bool :=
  match fs (str p) with
  | Exists => mret true
  | Missing => mret false
  | Fails errno => raise (OSError errno)
  end.

End pathlib.

(** ** [core/models/base.py] *)

Module base.
Import Py.

(** Modelled from the spec: [core/models/base.py] is not among the sources.
    The spec's data model gives a Model its id, path, VRAM requirement,
    feature type and a status among UNLOADED, LOADING, LOADED, UNLOADING and
    ERROR; the subclasses pass the first four to [BaseModel.__init__]. *)
Inductive ModelStatus : Type := UNLOADED | LOADING | LOADED | UNLOADING | ERROR.

Record BaseModel : Type := {
  model_id : string;
  model_path : string;
  vram_requirement : Z;
  feature_type : string;
  status : ModelStatus
}.

Definition __init__ (model_id model_path : string) (vram_requirement : Z)
    (feature_type : string) : BaseModel :=
  {| model_id := model_id; model_path := model_path;
     vram_requirement := vram_requirement; feature_type := feature_type;
     status := UNLOADED |}.

(** A method body that may read and write the attributes of [self]. *)
Definition Method (Self A : Type) : Type := Self → A * Self.
Definition attr {Self A} (f : Self → A) : Method Self A := λ self, (f self, self).
Definition mreturn {Self A} (a : A) : Method Self A := λ self, (a, self).
Definition mthen {Self A B} (m : Method Self A) (k : A → Method Self B)
    : Method Self B :=
  λ self, let '(a, self') := m self in k a self'.

(** [d.update(other)]: the entries of [other] win. *)
Definition update (d other : dict) : dict := other ∪ d.

End base.

(** ** [core/models/retopo_models.py] *)

Module retopo_models.
Import Py pathlib.

Record MeshRetopologyModel : Type := {
  super : base.BaseModel;
  supported_input_formats : list string;
  supported_output_formats : list string;
  target_vertex_count : option Z
}.

Definition __init__ (model_id model_path : string) (vram_requirement : Z)
    (supported_input_formats supported_output_formats : option (list string))
    (target_vertex_count : option Z) : MeshRetopologyModel :=
  {| super := base.__init__ model_id model_path vram_requirement "mesh_retopology";
     supported_input_formats :=
       list_or supported_input_formats ["obj"; "glb"; "ply"; "stl"];
     supported_output_formats := list_or supported_output_formats ["obj"; "glb"];
     target_vertex_count := target_vertex_count |}.

(** [_process_request(self, inputs)].  The file system is an explicit
    argument; the two [logger.info] calls are not modelled.  The
    [output_format] test is split by the type of the value: something that
    is not a [str] is equal to no element of the list. *)
Definition _process_request `{!CaseMapping} (self : MeshRetopologyModel)
    (fs : filesystem) (inputs : dict) : M dict :=
  match inputs !! "mesh_path" with
  | None => raise (ValueError mesh_path_required)
  | Some v =>
      mesh_path ← of_value v;
      found ← exists_ fs mesh_path;
      if negb found then
        raise (FileNotFoundError (str mesh_path))
      else
        let input_format := lstrip dot (lower (suffix mesh_path)) in
        if negb (existsb (String.eqb input_format) (supported_input_formats self))
        then raise (ValueError (unsupported_input_format input_format
                                  (supported_input_formats self)))
        else
          let output_format := get inputs "output_format" (VStr "obj") in
          match output_format with
          | VStr fmt =>
              if negb (in_str_list output_format (supported_output_formats self))
              then raise (ValueError (unsupported_output_format output_format))
              else
                let target_vertex_count :=
                  get inputs "target_vertex_count"
                    (of_option_int (target_vertex_count self)) in
                mret (list_to_map [
                  ("output_mesh_path",
                    VStr (str (truediv (parent mesh_path)
                                 ("retopo_" ++ stem mesh_path ++ "." ++ fmt))));
                  ("original_stats",
                    VDict (list_to_map [("vertices", VInt 0); ("faces", VInt 0)]));
                  ("output_stats",
                    VDict (list_to_map [
                      ("vertices", or_ target_vertex_count (VInt 0));
                      ("faces", VInt 0)]));
                  ("retopology_info",
                    VDict (list_to_map [
                      ("success", VBool true);
                      ("target_vertex_count", target_vertex_count)]))
                ])
          | _ => raise (ValueError (unsupported_output_format output_format))
          end
  end.

(** [get_supported_formats(self)] *)
Definition get_supported_formats
    : base.Method MeshRetopologyModel (gmap string (list string)) :=
  base.mthen (base.attr supported_input_formats) (λ input,
  base.mthen (base.attr supported_output_formats) (λ output,
  base.mreturn (list_to_map [("input", input); ("output", output)]))).

(** [get_model_info(self)].  [get_info] is [BaseModel.get_info], which is
    not among the sources: it is a parameter, a method of the base object. *)
Definition get_model_info (get_info : base.Method base.BaseModel dict)
    : base.Method MeshRetopologyModel dict :=
  λ self,
    let '(info, super') := get_info (super self) in
    let self := {| super := super';
                   supported_input_formats := supported_input_formats self;
                   supported_output_formats := supported_output_formats self;
                   target_vertex_count := target_vertex_count self |} in
    let info := base.update info (list_to_map [
      ("model_type", VStr "mesh_retopology");
      ("description", VStr "Mesh retopology model for optimizing mesh topology");
      ("target_vertex_count", of_option_int (target_vertex_count self));
      ("capabilities",
        VList [VStr "Polygon reduction"; VStr "Topology optimization"])
    ]) in
    (info, self).

End retopo_models.

(** ** [core/models/uv_models.py] *)

Module uv_models.
Import Py pathlib.

Record UVUnwrappingModel : Type := {
  super : base.BaseModel;
  supported_input_formats : list string;
  supported_output_formats : list string;
  distortion_threshold : float
}.

(** The default of the [distortion_threshold] keyword argument. *)
Definition default_distortion_threshold : float := 1.25%float.

Definition __init__ (model_id model_path : string) (vram_requirement : Z)
    (supported_input_formats supported_output_formats : option (list string))
    (distortion_threshold : float) : UVUnwrappingModel :=
  {| super := base.__init__ model_id model_path vram_requirement "uv_unwrapping";
     supported_input_formats := list_or supported_input_formats ["obj"; "glb"];
     supported_output_formats := list_or supported_output_formats ["obj"; "glb"];
     distortion_threshold := distortion_threshold |}.

(** [_process_request(self, inputs)], modelled like the one of
    [MeshRetopologyModel]. *)
Definition _process_request `{!CaseMapping} (self : UVUnwrappingModel)
    (fs : filesystem) (inputs : dict) : M dict :=
  match inputs !! "mesh_path" with
  | None => raise (ValueError mesh_path_required)
  | Some v =>
      mesh_path ← of_value v;
      found ← exists_ fs mesh_path;
      if negb found then
        raise (FileNotFoundError (str mesh_path))
      else
        let input_format := lstrip dot (lower (suffix mesh_path)) in
        if negb (existsb (String.eqb input_format) (supported_input_formats self))
        then raise (ValueError (unsupported_input_format input_format
                                  (supported_input_formats self)))
        else
          let output_format := get inputs "output_format" (VStr "obj") in
          match output_format with
          | VStr fmt =>
              if negb (in_str_list output_format (supported_output_formats self))
              then raise (ValueError (unsupported_output_format output_format))
              else
                let distortion_threshold :=
                  get inputs "distortion_threshold"
                    (VFloat (distortion_threshold self)) in
                let pack_method := get inputs "pack_method" (VStr "blender") in
                mret (list_to_map [
                  ("output_mesh_path",
                    VStr (str (truediv (parent mesh_path)
                                 ("uv_" ++ stem mesh_path ++ "." ++ fmt))));
                  ("packed_mesh_path", VNone);
                  ("num_components", VInt 0);
                  ("distortion", VFloat 0%float);
                  ("uv_info",
                    VDict (list_to_map [
                      ("success", VBool true);
                      ("distortion_threshold", distortion_threshold);
                      ("pack_method", pack_method)]))
                ])
          | _ => raise (ValueError (unsupported_output_format output_format))
          end
  end.

(** [get_supported_formats(self)] *)
Definition get_supported_formats
    : base.Method UVUnwrappingModel (gmap string (list string)) :=
  base.mthen (base.attr supported_input_formats) (λ input,
  base.mthen (base.attr supported_output_formats) (λ output,
  base.mreturn (list_to_map [("input", input); ("output", output)]))).

(** [get_model_info(self)], with [BaseModel.get_info] as a parameter. *)
Definition get_model_info (get_info : base.Method base.BaseModel dict)
    : base.Method UVUnwrappingModel dict :=
  λ self,
    let '(info, super') := get_info (super self) in
    let self := {| super := super';
                   supported_input_formats := supported_input_formats self;
                   supported_output_formats := supported_output_formats self;
                   distortion_threshold := distortion_threshold self |} in
    let info := base.update info (list_to_map [
      ("model_type", VStr "uv_unwrapping");
      ("description",
        VStr "UV unwrapping model for generating optimized UV coordinates");
      ("distortion_threshold", VFloat (distortion_threshold self));
      ("capabilities",
        VList [VStr "Part-based unwrapping"; VStr "Distortion minimization";
               VStr "UV packing"])
    ]) in
    (info, self).

End uv_models.

(** ** [generate_3d_hunyuan.py]: the client's image upload *)

Module generate_3d_hunyuan.

(** Python floats are IEEE 754 binary64 numbers, as the primitive floats
    are.  [float(n)] for an integer [0 <= n < 2^63]; it is exact below
    [2^53]. *)
Definition float_of_int (n : Z) : float := PrimFloat.of_uint63 (Uint63.of_Z n).

(** [int(x)]: truncation towards zero; [None] stands for the exception
    raised on an infinity or a NaN. *)
Definition int_of_float (x : float) : option Z :=
  match Prim2SF x with
  | S754_zero _ => Some 0
  | S754_finite s m e => Some (cond_Zopp s (Z.shiftl (Zpos m) e))
  | _ => None
  end.

(** [min(a, b)] of two floats: the first of the smallest. *)
Definition py_min (a b : float) : float := if PrimFloat.ltb b a then b else a.

(** [ratio = min(2048 / width, 2048 / height)]; [/] on two integers is the
    correctly rounded quotient, which for integers below [2^53] is the
    quotient of the two floats. *)
Definition ratio (width height : Z) : float :=
  py_min (float_of_int 2048 / float_of_int width)
         (float_of_int 2048 / float_of_int height).

(** [new_size = (int(width * ratio), int(height * ratio))] *)
Definition new_size (width height : Z) : option (Z * Z) :=
  let ratio := ratio width height in
  match int_of_float (float_of_int width * ratio),
        int_of_float (float_of_int height * ratio) with
  | Some w, Some h => Some (w, h)
  | _, _ => None
  end.

(** *** Pillow, as far as [upload_image] uses it *)

(** An opened image: its size and its mode (["RGB"], ["RGBA"], ["L"],
    ["P"], ...). *)
Record Image : Type := { size : Z * Z; mode : string }.

(** What makes [upload_image] raise before anything is posted: [int()] of
    an infinity or a NaN, or Pillow refusing the image ([ValueError] of
    [resize] for a dimension below 1, [OSError] for a mode that cannot be
    written as JPEG). *)
Inductive image_error : Type :=
| Cannot_convert
| Image_refused.

(** [img.resize(new_size, Image.LANCZOS)] for a new size other than the
    image's own: a dimension below 1 is refused; the mode is kept. *)
Definition resize (img : Image) (new_size : Z * Z) : image_error + Image :=
  if (new_size.1 <? 1) || (new_size.2 <? 1) then inl Image_refused
  else inr {| size := new_size; mode := mode img |}.

(** The modes the JPEG writer accepts. *)
Definition jpeg_modes : list string := ["1"; "L"; "RGB"; "RGBX"; "CMYK"; "YCbCr"].

(** [img.save(buffer, format='JPEG')]: any other mode is refused. *)
Definition save_jpeg (img : Image) : image_error + unit :=
  if existsb (String.eqb (mode img)) jpeg_modes then inr tt
  else inl Image_refused.

(** What [upload_image] posts: the file as it is, or the image resized to
    [new_size] and saved as JPEG. *)
Inductive upload : Type :=
| Original
| Resized (new_size : Z * Z).

(** [upload_image], from the opened image to what is posted.  Decoding and
    resampling the pixels and the HTTP request itself are not modelled. *)
Definition upload_image (img : Image) : image_error + upload :=
  let '(width, height) := size img in
  if (2048 <? width) || (2048 <? height) then
    match new_size width height with
    | Some new_size =>
        match resize img new_size with
        | inr img =>
            match save_jpeg img with
            | inr _ => inr (Resized new_size)
            | inl e => inl e
            end
        | inl e => inl e
        end
    | None => inl Cannot_convert
    end
  else inr Original.

(** A normalised float [m * 2^e] scaled by [2^94]. *)
Definition scaled (m : positive) (e : Z) : Z := Zpos m * 2 ^ (e + 94).

End generate_3d_hunyuan.

(** ** The vocabulary of the upload limit *)

Module UploadSpec.
Import generate_3d_hunyuan.


Definition photo (width height : Z) : Image :=
  {| size := (width, height); mode := "RGB" |}.

End UploadSpec.

(** ** GPU resource tracker and model lifecycle *)

Module tracker.

(** Modelled from the spec: the GPU Resource Tracker and the load / unload
    transitions of the Model Registry are not among the sources.  The
    definitions follow sections 3, 4.1 and 4.2 of the design: a GPU has
    [total_vram], [allocated_vram] and a set of resident model ids; a model
    has a fixed [vram_requirement], a status and, when loaded, a GPU.  Amounts
    of VRAM are byte counts. *)
Record GPU : Type := {
  total_vram : N;
  allocated_vram : N;
  resident_models : gset string
}.

Record Model : Type := {
  vram_requirement : N;
  status : base.ModelStatus;
  device : option Z
}.

Record System : Type := {
  models : gmap string Model;
  gpus : gmap Z GPU
}.

Inductive error : Type :=
| InsufficientVRAMError
| LoadError
| ConflictError
| NotFoundError.

(** The declared requirement of a model id (0 for an unknown id). *)
Definition requirement (ms : gmap string Model) (model_id : string) : N :=
  match ms !! model_id with
  | Some m => vram_requirement m
  | None => 0%N
  end.

(** [Σ vram_requirement] over the resident models of a GPU. *)
Definition resident_sum (ms : gmap string Model) (g : GPU) : N :=
  set_fold (λ model_id acc, (acc + requirement ms model_id)%N) 0%N
    (resident_models g).

(** The GPU invariant of the data model. *)
Definition gpu_invariant (ms : gmap string Model) (g : GPU) : Prop :=
  allocated_vram g = resident_sum ms g ∧ (allocated_vram g ≤ total_vram g)%N.

#[global] Instance gpu_invariant_dec ms g : Decision (gpu_invariant ms g).
Proof. unfold gpu_invariant. apply _. Defined.

(** [can_admit(gpu, vram_requirement)] *)
Definition can_admit (g : GPU) (vram : N) : bool :=
  bool_decide (allocated_vram g + vram ≤ total_vram g)%N.

Definition set_gpu (sys : System) (gpu_id : Z) (g : GPU) : System :=
  {| models := models sys; gpus := <[gpu_id := g]> (gpus sys) |}.

Definition set_model (sys : System) (model_id : string) (m : Model) : System :=
  {| models := <[model_id := m]> (models sys); gpus := gpus sys |}.

(** [reserve(gpu_id, model_id, vram_requirement)]: increments
    [allocated_vram] by the amount asked for and records residency; fails
    with [InsufficientVRAMError] when the GPU cannot admit that amount. *)
Definition reserve (sys : System) (gpu_id : Z) (model_id : string) (vram : N)
    : error + System :=
  match gpus sys !! gpu_id with
  | None => inl NotFoundError
  | Some g =>
      if can_admit g vram then
        inr (set_gpu sys gpu_id
               {| total_vram := total_vram g;
                  allocated_vram := (allocated_vram g + vram)%N;
                  resident_models := {[model_id]} ∪ resident_models g |})
      else inl InsufficientVRAMError
  end.

(** [release(gpu_id, model_id)]: decrements [allocated_vram] by the model's
    requirement and removes residency; idempotent. *)
Definition release (sys : System) (gpu_id : Z) (model_id : string) : System :=
  match gpus sys !! gpu_id with
  | None => sys
  | Some g =>
      if bool_decide (model_id ∈ resident_models g) then
        set_gpu sys gpu_id
          {| total_vram := total_vram g;
             allocated_vram :=
               (allocated_vram g - requirement (models sys) model_id)%N;
             resident_models := resident_models g ∖ {[model_id]} |}
      else sys
  end.

(** [load(gpu_id)] of the model [model_id]: a no-op when already loaded on
    that GPU, [ConflictError] when loaded elsewhere; otherwise the VRAM is
    reserved and the artifact materialised ([materialises] says whether
    that succeeds); on failure the model moves to ERROR and the claim is
    released. *)
Definition load (sys : System) (model_id : string) (gpu_id : Z)
    (materialises : bool) : option error * System :=
  match models sys !! model_id with
  | None => (Some NotFoundError, sys)
  | Some m =>
      match status m, device m with
      | base.LOADED, Some current =>
          if bool_decide (current = gpu_id) then (None, sys)
          else (Some ConflictError, sys)
      | _, _ =>
          match reserve sys gpu_id model_id (vram_requirement m) with
          | inl e => (Some e, sys)
          | inr sys' =>
              if materialises then
                (None, set_model sys' model_id
                         {| vram_requirement := vram_requirement m;
                            status := base.LOADED; device := Some gpu_id |})
              else
                (Some LoadError,
                 set_model (release sys' gpu_id model_id) model_id
                   {| vram_requirement := vram_requirement m;
                      status := base.ERROR; device := None |})
          end
      end
  end.

(** [unload()] of the model [model_id]: releases the claim of a loaded
    model; a no-op otherwise. *)
Definition unload (sys : System) (model_id : string) : System :=
  match models sys !! model_id with
  | None => sys
  | Some m =>
      match status m, device m with
      | base.LOADED, Some current =>
          set_model (release sys current model_id) model_id
            {| vram_requirement := vram_requirement m;
               status := base.UNLOADED; device := None |}
      | _, _ => sys
      end
  end.

(** The operations a caller may issue, and the state they lead to (a failed
    [reserve] changes nothing). *)
Inductive operation : Type :=
| Reserve (gpu_id : Z) (model_id : string) (vram : N)
| Release (gpu_id : Z) (model_id : string)
| Load (model_id : string) (gpu_id : Z) (materialises : bool)
| Unload (model_id : string).

Definition step (sys : System) (op : operation) : System :=
  match op with
  | Reserve gpu_id model_id vram =>
      match reserve sys gpu_id model_id vram with
      | inr sys' => sys'
      | inl _ => sys
      end
  | Release gpu_id model_id => release sys gpu_id model_id
  | Load model_id gpu_id materialises => (load sys model_id gpu_id materialises).2
  | Unload model_id => unload sys model_id
  end.









(** The state after a sequence of operations. *)
Definition after (sys : System) (ops : list operation) : System :=
  foldl step sys ops.

(** The scenario of the design: two models of 4096 and one GPU of 6144. *)
Definition two_models_one_gpu : System :=
  {| models := list_to_map [
       ("A", {| vram_requirement := 4096%N; status := base.UNLOADED; device := None |});
       ("B", {| vram_requirement := 4096%N; status := base.UNLOADED; device := None |})];
     gpus := {[ 0 := {| total_vram := 6144%N; allocated_vram := 0%N;
                        resident_models := ∅ |} ]} |}.


End tracker.

(** ** The vocabulary of the specification *)

Module Spec.
Import Py pathlib.

(** A model as far as request validation is concerned: its two format
    lists and its [_process_request]. *)
Record processor : Type := {
  input_formats : list string;
  output_formats : list string;
  run : filesystem → dict → M dict
}.

Section with_case_mapping.
Context `{!CaseMapping}.

Definition retopo (self : retopo_models.MeshRetopologyModel) : processor :=
  {| input_formats := retopo_models.supported_input_formats self;
     output_formats := retopo_models.supported_output_formats self;
     run := retopo_models._process_request self |}.

Definition uv (self : uv_models.UVUnwrappingModel) : processor :=
  {| input_formats := uv_models.supported_input_formats self;
     output_formats := uv_models.supported_output_formats self;
     run := uv_models._process_request self |}.

(** The extension of a path as the models read it, and as it is written. *)
Definition extension (p : Path) : string := lstrip dot (suffix p).
Definition input_format (p : Path) : string := lstrip dot (lower (suffix p)).

(** [inputs["mesh_path"]] is the string [s]. *)
Definition mesh_path_is (inputs : dict) (s : string) : Prop :=
  inputs !! "mesh_path" = Some (VStr s).

Definition mesh_path_absent (inputs : dict) : Prop :=
  inputs !! "mesh_path" = None.

(** The mesh path names an existing file. *)
Definition mesh_file_exists (fs : filesystem) (inputs : dict) : Prop :=
  ∃ s, mesh_path_is inputs s ∧ exists_ fs (parse s) = inr true.

(** The existing input file has an extension outside the list. *)
Definition input_format_unsupported (formats : list string) (fs : filesystem)
    (inputs : dict) : Prop :=
  ∃ s, mesh_path_is inputs s ∧ exists_ fs (parse s) = inr true ∧
       existsb (String.eqb (input_format (parse s))) formats = false.

(** The requested [output_format], ["obj"] when the key is absent. *)
Definition requested_output_format (inputs : dict) : value :=
  get inputs "output_format" (VStr "obj").

Definition output_format_unsupported (formats : list string) (inputs : dict)
    : Prop :=
  in_str_list (requested_output_format inputs) formats = false.

Definition raises_ValueError {A} (r : M A) : Prop := ∃ e, r = inl (ValueError e).
Definition returns {A} (r : M A) : Prop := ∃ a, r = inr a.


(** The request passes validation with mesh path [p] and output format
    [fmt]. *)
Definition validated (m : processor) (fs : filesystem) (inputs : dict)
    (p : Path) (fmt : string) : Prop :=
  (∃ s, mesh_path_is inputs s ∧ p = parse s) ∧
  exists_ fs p = inr true ∧
  existsb (String.eqb (input_format p)) (input_formats m) = true ∧
  requested_output_format inputs = VStr fmt ∧
  existsb (String.eqb fmt) (output_formats m) = true.

(** How validation of a request ends, in the order the checks are made. *)
Inductive verdict : Type :=
| Missing_mesh_path
| Not_a_path
| Stat_failed (e : exn)
| Not_found (p : Path)
| Unsupported_input (p : Path)
| Unsupported_output (p : Path) (v : value)
| Accepted (p : Path) (fmt : string).

Definition check (m : processor) (fs : filesystem) (inputs : dict) : verdict :=
  match inputs !! "mesh_path" with
  | None => Missing_mesh_path
  | Some (VStr s) =>
      let p := parse s in
      match exists_ fs p with
      | inl e => Stat_failed e
      | inr false => Not_found p
      | inr true =>
          if existsb (String.eqb (input_format p)) (input_formats m) then
            match requested_output_format inputs with
            | VStr fmt =>
                if existsb (String.eqb fmt) (output_formats m)
                then Accepted p fmt
                else Unsupported_output p (VStr fmt)
            | v => Unsupported_output p v
            end
          else Unsupported_input p
      end
  | Some _ => Not_a_path
  end.

(** The exception a verdict stands for, if any. *)
Definition verdict_exn (m : processor) (v : verdict) : option exn :=
  match v with
  | Missing_mesh_path => Some (ValueError mesh_path_required)
  | Not_a_path => Some TypeError
  | Stat_failed e => Some e
  | Not_found p => Some (FileNotFoundError (str p))
  | Unsupported_input p =>
      Some (ValueError (unsupported_input_format (input_format p) (input_formats m)))
  | Unsupported_output _ v => Some (ValueError (unsupported_output_format v))
  | Accepted _ _ => None
  end.

(** C1 as the specification words it: the three causes of a [ValueError],
    and a result when none applies and the file exists. *)
Definition validation_error_iff_as_stated (m : processor) : Prop :=
  ∀ fs inputs,
    (raises_ValueError (run m fs inputs) ↔
       mesh_path_absent inputs ∨
       input_format_unsupported (input_formats m) fs inputs ∨
       output_format_unsupported (output_formats m) inputs) ∧
    (¬ mesh_path_absent inputs →
     ¬ input_format_unsupported (input_formats m) fs inputs →
     ¬ output_format_unsupported (output_formats m) inputs →
     mesh_file_exists fs inputs → returns (run m fs inputs)).

(** C1 with the output format counted only for an existing file. *)
Definition validation_error_iff (m : processor) : Prop :=
  ∀ fs inputs,
    (raises_ValueError (run m fs inputs) ↔
       mesh_path_absent inputs ∨
       input_format_unsupported (input_formats m) fs inputs ∨
       (mesh_file_exists fs inputs ∧
        output_format_unsupported (output_formats m) inputs)) ∧
    (¬ mesh_path_absent inputs →
     ¬ input_format_unsupported (input_formats m) fs inputs →
     ¬ output_format_unsupported (output_formats m) inputs →
     mesh_file_exists fs inputs → returns (run m fs inputs)).

(** The input side of validation passed: the file exists and its
    extension is supported. *)
Definition input_validated (m : processor) (fs : filesystem) (inputs : dict)
    : Prop :=
  ∃ s, mesh_path_is inputs s ∧ exists_ fs (parse s) = inr true ∧
       existsb (String.eqb (input_format (parse s))) (input_formats m) = true.

Definition raises_unsupported_input {A} (r : M A) : Prop :=
  ∃ f l, r = inl (ValueError (unsupported_input_format f l)).

Definition raises_unsupported_output {A} (r : M A) : Prop :=
  ∃ v, r = inl (ValueError (unsupported_output_format v)).

(** The requested format is, letter for letter, an entry of the list. *)
Definition output_format_listed (formats : list string) (inputs : dict) : Prop :=
  ∃ fmt, requested_output_format inputs = VStr fmt ∧ fmt ∈ formats.

(** C5 as the specification words it: a requested format that matches an
    entry up to letter case is not refused. *)
Definition output_case_insensitive_as_stated (m : processor) : Prop :=
  ∀ fs inputs fmt entry,
    input_validated m fs inputs →
    requested_output_format inputs = VStr fmt →
    entry ∈ output_formats m →
    lower fmt = lower entry →
    ¬ raises_unsupported_output (run m fs inputs).

(** C5 as the code has it: the match is exact. *)
Definition output_match_exact (m : processor) : Prop :=
  ∀ fs inputs,
    input_validated m fs inputs →
    (raises_unsupported_output (run m fs inputs) ↔
     ¬ output_format_listed (output_formats m) inputs) ∧
    (output_format_listed (output_formats m) inputs ↔
     returns (run m fs inputs)).

(** A processor whose [run] follows [check]: raises what the verdict stands
    for, returns when the request is accepted. *)
Definition follows_check (m : processor) : Prop :=
  ∀ fs inputs,
    match verdict_exn m (check m fs inputs) with
    | Some e => run m fs inputs = inl e
    | None => returns (run m fs inputs)
    end.

(** What each verdict says about the request. *)
Definition verdict_facts (m : processor) (fs : filesystem) (inputs : dict)
    (v : verdict) : Prop :=
  match v with
  | Missing_mesh_path => mesh_path_absent inputs
  | Not_a_path => ∃ x, inputs !! "mesh_path" = Some x ∧ ∀ s, x ≠ VStr s
  | Stat_failed e =>
      ∃ s, mesh_path_is inputs s ∧ exists_ fs (parse s) = inl e
  | Not_found p =>
      ∃ s, mesh_path_is inputs s ∧ p = parse s ∧ exists_ fs p = inr false
  | Unsupported_input p =>
      ∃ s, mesh_path_is inputs s ∧ p = parse s ∧ exists_ fs p = inr true ∧
           existsb (String.eqb (input_format p)) (input_formats m) = false
  | Unsupported_output p x =>
      (∃ s, mesh_path_is inputs s ∧ p = parse s) ∧ exists_ fs p = inr true ∧
      existsb (String.eqb (input_format p)) (input_formats m) = true ∧
      requested_output_format inputs = x ∧
      in_str_list x (output_formats m) = false
  | Accepted p fmt => validated m fs inputs p fmt
  end.

End with_case_mapping.

End Spec.

(** ** Sample models, files and requests *)

Module Samples.
Import Py pathlib.

Definition fastmesh : retopo_models.MeshRetopologyModel :=
  retopo_models.__init__ "fastmesh_v1k" "pretrained/FastMesh-V1K" 4096
    None None (Some 1000).

Definition partuv : uv_models.UVUnwrappingModel :=
  uv_models.__init__ "partuv" "pretrained/PartUV" 4096 None None
    uv_models.default_distortion_threshold.

(** A file system with two mesh files. *)
Definition two_meshes : filesystem :=
  λ p, if String.eqb p "assets/example_mesh/typical_creature_furry.obj"
          || String.eqb p "/data/Model.OBJ"
       then Exists else Missing.

Definition no_files : filesystem := λ _, Missing.


(** A file system without files where, as on Linux, a file name of more
    than 255 bytes makes [stat] fail with [ENAMETOOLONG] (36). *)
Definition short_names_only : filesystem :=
  λ p, if 255 <? len (name (parse p)) then Fails 36 else Missing.

(** A file name of 304 characters. *)
Definition long_name : string :=
  String.concat "" (repeat "aaaaaaaaaaaaaaaaaaaaaaaaaaaaaa" 10) ++ ".obj".

Definition long_mesh_path : dict := list_to_map [("mesh_path", VStr long_name)].

Definition request (l : list (string * value)) : dict := list_to_map l.

(** A missing file together with an unknown output format. *)
Definition missing_and_invalid : dict :=
  request [("mesh_path", VStr "nonexistent_mesh.obj");
           ("output_format", VStr "invalid_format")].

Definition furry : dict :=
  request [("mesh_path", VStr "assets/example_mesh/typical_creature_furry.obj");
           ("output_format", VStr "obj"); ("seed", VInt 42)].

Definition upper_case_input : dict :=
  request [("mesh_path", VStr "/data/Model.OBJ")].

Definition upper_case_output : dict :=
  request [("mesh_path", VStr "/data/Model.OBJ"); ("output_format", VStr "OBJ")].

Definition explicit_none_target : dict :=
  request [("mesh_path", VStr "/data/Model.OBJ");
           ("target_vertex_count", VNone)].

(** Models configured with a two-part output format, and a request for
    it. *)
Definition tar_retopo : retopo_models.MeshRetopologyModel :=
  retopo_models.__init__ "fastmesh_v1k" "pretrained/FastMesh-V1K" 4096
    None (Some ["tar.gz"]) None.

Definition tar_uv : uv_models.UVUnwrappingModel :=
  uv_models.__init__ "partuv" "pretrained/PartUV" 4096 None (Some ["tar.gz"])
    uv_models.default_distortion_threshold.

Definition tar_request : dict :=
  request [("mesh_path", VStr "/data/Model.OBJ");
           ("output_format", VStr "tar.gz")].

(** A model configured with an output format that holds a separator. *)
Definition nested_retopo : retopo_models.MeshRetopologyModel :=
  retopo_models.__init__ "fastmesh_v1k" "pretrained/FastMesh-V1K" 4096
    None (Some ["a/b"]) None.

Definition nested_request : dict :=
  request [("mesh_path", VStr "/data/Model.OBJ");
           ("output_format", VStr "a/b")].

Definition invalid_pack_method : dict :=
  request [("mesh_path", VStr "/data/Model.OBJ"); ("output_format", VStr "obj");
           ("pack_method", VStr "invalid_method")].

End Samples.

(** ** Paths in normal form *)

Module PathSpec.
Import Py pathlib.

(** [c in s] for a character [c] *)
Fixpoint mem_char (c : ascii) (s : string) : bool :=
  match s with
  | EmptyString => false
  | String a s' => Ascii.eqb a c || mem_char c s'
  end.

(** A path component as [parse] leaves it: not empty, not ["."], without a
    separator. *)
Definition component (x : string) : Prop :=
  is_component x = true ∧ mem_char sep x = false.

(** The paths [parse] produces. *)
Definition normal (p : Path) : Prop :=
  (root p = "" ∨ root p = "/" ∨ root p = "//") ∧ Forall component (names p).

(** The file name [_process_request] gives to its output. *)
Definition output_name (prefix : string) (p : Path) (fmt : string) : string :=
  prefix ++ stem p ++ "." ++ fmt.

(** An extension token: not empty, without separator or dot. *)
Definition extension_token (fmt : string) : Prop :=
  fmt ≠ "" ∧ mem_char sep fmt = false ∧ mem_char dot fmt = false.

(** The path [parse] builds from a root and the rest of the string. *)
Definition parsed (r rel : string) : Path :=
  {| root := r;
     names := filter (λ x, is_component x = true) (split sep rel) |}.

End PathSpec.

Module ResultSpec.
Import Py pathlib Spec PathSpec.

(** What the result says about its output file: the string under
    ["output_mesh_path"] is the parent of the mesh path joined with the
    prefixed name; read back as a path it lies in that parent directory and
    bears that name when the format holds no separator, and has the format
    as its suffix when the format is an extension token. *)
Definition output_beside_input (prefix : string) (p : Path) (fmt : string)
    (d : dict) : Prop :=
  ∃ out,
    d !! "output_mesh_path" = Some (VStr out) ∧
    out = str (truediv (parent p) (output_name prefix p fmt)) ∧
    (mem_char sep fmt = false →
       parent (parse out) = parent p ∧
       name (parse out) = prefix ++ stem p ++ "." ++ fmt) ∧
    (extension_token fmt → suffix (parse out) = "." ++ fmt).

(** C3 as the specification words it, for the output file: whatever the
    requested format, the output path lies in the parent directory of the
    input, is named with the prefix before the input stem, and has the
    requested format as its extension. *)
Definition output_beside_input_as_stated (prefix : string) (p : Path)
    (fmt : string) (d : dict) : Prop :=
  ∃ out,
    d !! "output_mesh_path" = Some (VStr out) ∧
    parent (parse out) = parent p ∧
    (∃ rest, name (parse out) = prefix ++ stem p ++ rest) ∧
    suffix (parse out) = "." ++ fmt.

Definition result_as_stated `{!CaseMapping} (m : processor)
    (keys : gset string) (prefix : string) : Prop :=
  ∀ fs inputs p fmt,
    validated m fs inputs p fmt →
    ∃ d, run m fs inputs = inr d ∧ dom d = keys ∧
         output_beside_input_as_stated prefix p fmt d.

Definition retopo_keys : gset string :=
  {[ "output_mesh_path"; "original_stats"; "output_stats"; "retopology_info" ]}.

Definition uv_keys : gset string :=
  {[ "output_mesh_path"; "packed_mesh_path"; "num_components"; "distortion";
     "uv_info" ]}.

End ResultSpec.

Module TargetSpec.
Import Py pathlib Spec.

(** The target vertex count a request resolves to: the input key when it is
    present, the constructor's value otherwise. *)
Definition resolved_target (r : retopo_models.MeshRetopologyModel)
    (inputs : dict) : value :=
  match inputs !! "target_vertex_count" with
  | Some v => v
  | None => of_option_int (retopo_models.target_vertex_count r)
  end.

(** Both the input key and the constructor value are absent or [None]. *)
Definition both_absent (r : retopo_models.MeshRetopologyModel) (inputs : dict)
    : bool :=
  match inputs !! "target_vertex_count", retopo_models.target_vertex_count r with
  | (None | Some VNone), None => true
  | _, _ => false
  end.

(** The result reports [vertices] and [target] as its vertex count and its
    target. *)
Definition reports (d : dict) (vertices target : value) : Prop :=
  ∃ stats info,
    d !! "output_stats" = Some (VDict stats) ∧
    stats !! "vertices" = Some vertices ∧
    d !! "retopology_info" = Some (VDict info) ∧
    info !! "target_vertex_count" = Some target.

Section with_case_mapping.
Context `{!CaseMapping}.

(** C8 as the specification words it: the vertex count is the resolved
    target, and 0 when both sources are absent or [None]. *)
Definition target_override_as_stated (r : retopo_models.MeshRetopologyModel)
    : Prop :=
  ∀ fs inputs p fmt,
    validated (retopo r) fs inputs p fmt →
    ∃ d, run (retopo r) fs inputs = inr d ∧
         reports d (if both_absent r inputs then VInt 0
                    else resolved_target r inputs)
                   (resolved_target r inputs).

(** C8 as the code has it: the vertex count is the resolved target when that
    is truthy, and 0 otherwise. *)
Definition target_override (r : retopo_models.MeshRetopologyModel) : Prop :=
  ∀ fs inputs p fmt,
    validated (retopo r) fs inputs p fmt →
    ∃ d, run (retopo r) fs inputs = inr d ∧
         reports d (if truthy (resolved_target r inputs)
                    then resolved_target r inputs else VInt 0)
                   (resolved_target r inputs).

End with_case_mapping.

End TargetSpec.

Module DeterminismSpec.
Import Py pathlib Spec.

(** The attributes [_process_request] reads. *)
Definition same_retopo_attributes (r1 r2 : retopo_models.MeshRetopologyModel)
    : Prop :=
  retopo_models.supported_input_formats r1 = retopo_models.supported_input_formats r2 ∧
  retopo_models.supported_output_formats r1 = retopo_models.supported_output_formats r2 ∧
  retopo_models.target_vertex_count r1 = retopo_models.target_vertex_count r2.

Definition same_uv_attributes (u1 u2 : uv_models.UVUnwrappingModel) : Prop :=
  uv_models.supported_input_formats u1 = uv_models.supported_input_formats u2 ∧
  uv_models.supported_output_formats u1 = uv_models.supported_output_formats u2 ∧
  uv_models.distortion_threshold u1 = uv_models.distortion_threshold u2.

(** Two file systems that answer alike for the mesh path of the request. *)
Definition same_mesh_file (fs1 fs2 : filesystem) (inputs : dict) : Prop :=
  ∀ s, mesh_path_is inputs s → fs1 (str (parse s)) = fs2 (str (parse s)).

(** The default of [pack_method]. *)
Definition default_pack_method : value := VStr "blender".

(** ["pack_method"] is not validated and only echoed: setting it to [v]
    changes no error, and of a result only [uv_info["pack_method"]], which
    then holds [v]; without the key it holds the default. *)
Definition pack_method_echoed (m : processor) (fs : filesystem) (inputs : dict)
    (v : value) : Prop :=
  (∀ e, run m fs (<["pack_method" := v]> inputs) = inl e ↔
        run m fs inputs = inl e) ∧
  (∀ d, run m fs inputs = inr d →
     ∃ info,
       d !! "uv_info" = Some (VDict info) ∧
       info !! "pack_method" = Some (get inputs "pack_method" default_pack_method) ∧
       run m fs (<["pack_method" := v]> inputs)
       = inr (<["uv_info" := VDict (<["pack_method" := v]> info)]> d)).

End DeterminismSpec.

Module IntrospectionSpec.
Import Py.

(** A method that leaves [self] as it found it. *)
Definition read_only {Self A} (m : base.Method Self A) : Prop :=
  ∀ self, (m self).2 = self.

(** A sample [get_info]: the base attributes as a fresh mapping. *)
Definition sample_get_info : base.Method base.BaseModel dict :=
  base.mthen (base.attr base.model_id) (λ model_id,
  base.mthen (base.attr base.feature_type) (λ feature_type,
  base.mthen (base.attr base.vram_requirement) (λ vram_requirement,
  base.mreturn (list_to_map [
    ("model_id", VStr model_id);
    ("feature_type", VStr feature_type);
    ("vram_requirement", VInt vram_requirement)])))).

End IntrospectionSpec.

(** ** Further vocabulary: advertised formats, ignored keys *)

Module ModelSpec.
Import Py pathlib Spec PathSpec.

(** The request is accepted by the formats a model advertises through
    [get_supported_formats]: the lowercased extension of the mesh path is
    among ["input"], the requested output format among ["output"]. *)
Definition advertised `{!CaseMapping} (formats : gmap string (list string))
    (inputs : dict) (s : string) : Prop :=
  ∃ ins outs fmt,
    formats !! "input" = Some ins ∧ formats !! "output" = Some outs ∧
    lower (extension (parse s)) ∈ ins ∧
    requested_output_format inputs = VStr fmt ∧ fmt ∈ outs.

(** The keys [_process_request] reads. *)
Definition retopo_read_keys : list string :=
  ["mesh_path"; "output_format"; "target_vertex_count"].

Definition uv_read_keys : list string :=
  ["mesh_path"; "output_format"; "distortion_threshold"; "pack_method"].


End ModelSpec.

Module CauseSpec.
Import Py pathlib Spec ModelSpec.


End CauseSpec.

Module OutputSpec.
Import Py pathlib Spec PathSpec.

(** The result names an output file that is not the input file: neither the
    mesh path as written nor the same path written differently. *)
Definition output_is_elsewhere (m : processor) (fs : filesystem) (inputs : dict)
    (p : Path) : Prop :=
  ∃ d out,
    run m fs inputs = inr d ∧
    d !! "output_mesh_path" = Some (VStr out) ∧
    parse out ≠ p ∧
    (∀ s, mesh_path_is inputs s → out ≠ s).

End OutputSpec.

(** ** [generate_3d_hunyuan.py]: talking to the server *)

Module client.
Import Py generate_3d_hunyuan.

(** What the script reads of a [requests] response: the status code, the
    body parsed as JSON ([None] when it is not JSON: [response.json()]
    raises) and the raw content. *)
Record Response : Type := {
  status_code : Z;
  json_body : option value;
  content : string
}.

(** Exceptions that reach the script. *)
Inductive failure : Type :=
| ConnectionError
| RequestException
| JSONDecodeError
| AttributeError
| ImageError (e : image_error).

(** A request is answered or fails ([ConnectionError] or another
    [RequestException]). *)
Definition reply : Type := failure + Response.

(** A call returns, raises, or is still looping when the recorded
    observations end. *)
Inductive outcome (A : Type) : Type :=
| Returned (a : A)
| Raised (e : failure)
| Unfinished.
Arguments Returned {A} a.
Arguments Raised {A} e.
Arguments Unfinished {A}.

(** [response.json()] *)
Definition json (r : Response) : failure + value :=
  match json_body r with
  | Some v => inr v
  | None => inl JSONDecodeError
  end.

(** [data.get(key, default)] on what [json()] returned: only a JSON object
    has [get]. *)
Definition data_get (data : value) (key : string) (default : value)
    : failure + value :=
  match data with
  | VDict d => inr (get d key default)
  | _ => inl AttributeError
  end.

(** [v == s] for a string literal [s] *)
Definition eq_str (v : value) (s : string) : bool :=
  match v with
  | VStr x => String.eqb x s
  | _ => false
  end.

(** [x < n] for a float [x] and an integer [n]: Python compares the two
    numbers exactly, without converting the integer. *)
Definition float_lt_int (x : float) (n : Z) : bool :=
  match Prim2SF x with
  | S754_zero _ => 0 <? n
  | S754_infinity negative => negative
  | S754_nan => false
  | S754_finite s m e =>
      let v := cond_Zopp s (Zpos m) in
      if 0 <=? e then v * 2 ^ e <? n else v <? n * 2 ^ (- e)
  end.

(** The loop test [time.time() - start_time < timeout], [now] being what
    [time.time()] returns at the test. *)
Definition within (start now : float) (timeout : Z) : bool :=
  float_lt_int (now - start) timeout.

(** [wait_for_server(url, timeout)].  Each observation is the clock at a
    loop test and the reply the status request gets if it is made;
    printing and sleeping are not modelled. *)
Fixpoint wait_for_server (start : float) (timeout : Z)
    (observations : list (float * reply)) : outcome bool :=
  match observations with
  | [] => Unfinished
  | (now, answer) :: observations =>
      if within start now timeout then
        match answer with
        | inr response =>
            if status_code response =? 200 then Returned true
            else wait_for_server start timeout observations
        | inl ConnectionError => wait_for_server start timeout observations
        | inl e => Raised e
        end
      else Returned false
  end.

(** [poll_job(job_id, timeout)]; [None] is Python's [None]. *)
Fixpoint poll_job (start : float) (timeout : Z)
    (observations : list (float * reply)) : outcome (option value) :=
  match observations with
  | [] => Unfinished
  | (now, answer) :: observations =>
      if within start now timeout then
        match answer with
        | inl e => Raised e
        | inr response =>
            if status_code response =? 200 then
              match json response with
              | inl e => Raised e
              | inr data =>
                  match data_get data "status" VNone with
                  | inl e => Raised e
                  | inr status =>
                      if eq_str status "completed" then Returned (Some data)
                      else if eq_str status "failed" then Returned None
                      else poll_job start timeout observations
                  end
              end
            else poll_job start timeout observations
        end
      else Returned None
  end.

(** The end of [upload_image] and of [generate_3d]: [None] unless the
    status is 200, then the field of the JSON body. *)
Definition field_of_reply (key : string) (answer : reply) : outcome value :=
  match answer with
  | inl e => Raised e
  | inr response =>
      if negb (status_code response =? 200) then Returned VNone
      else
        match json response with
        | inl e => Raised e
        | inr data =>
            match data_get data key VNone with
            | inl e => Raised e
            | inr v => Returned v
            end
        end
  end.

(** [upload_image(image_path)] with its request: the server sees what
    [generate_3d_hunyuan.upload_image] decides to post, and nothing when
    that raises. *)
Definition upload_and_get_id (img : Image) (server : upload → reply)
    : outcome value :=
  match upload_image img with
  | inl e => Raised (ImageError e)
  | inr posted => field_of_reply "file_id" (server posted)
  end.

(** The payload of [generate_3d(file_id, model)]. *)
Definition generation_payload (file_id : value) (model : string) : dict :=
  list_to_map [("image_file_id", file_id); ("texture_resolution", VInt 1024);
               ("output_format", VStr "glb"); ("model_preference", VStr model)].

Definition default_model : string := "hunyuan3dv21_image_to_textured_mesh".

(** [generate_3d(file_id, model)] *)
Definition generate_3d (file_id : value) (model : string)
    (server : dict → reply) : outcome value :=
  field_of_reply "job_id" (server (generation_payload file_id model)).

(** [download_result(job_id, output_path)]: the content written to
    [output_path], if any, and the returned flag. *)
Definition download_result (answer : reply) : outcome (option string * bool) :=
  match answer with
  | inl e => Raised e
  | inr response =>
      if status_code response =? 200 then Returned (Some (content response), true)
      else Returned (None, false)
  end.

(** The server and the clock as [main] meets them. *)
Record world : Type := {
  image : Image;
  status_start : float;
  status_observations : list (float * reply);
  upload_server : upload → reply;
  generation_server : dict → reply;
  poll_start : value → float;
  poll_observations : value → list (float * reply);
  download_server : value → reply
}.

(** How [main] ends. *)
Inductive ending : Type :=
| Server_not_reached
| No_file_id
| No_job_id
| No_result
| Download (job_id : value) (saved : option string)
| Crashed (e : failure)
| Still_running.

(** [main()] *)
Definition main (w : world) : ending :=
  match wait_for_server (status_start w) 60 (status_observations w) with
  | Unfinished => Still_running
  | Raised e => Crashed e
  | Returned false => Server_not_reached
  | Returned true =>
      match upload_and_get_id (image w) (upload_server w) with
      | Unfinished => Still_running
      | Raised e => Crashed e
      | Returned file_id =>
          if negb (truthy file_id) then No_file_id
          else
            match generate_3d file_id default_model (generation_server w) with
            | Unfinished => Still_running
            | Raised e => Crashed e
            | Returned job_id =>
                if negb (truthy job_id) then No_job_id
                else
                  match poll_job (poll_start w job_id) 1200
                          (poll_observations w job_id) with
                  | Unfinished => Still_running
                  | Raised e => Crashed e
                  | Returned None => No_result
                  | Returned (Some result) =>
                      if truthy result then
                        match download_result (download_server w job_id) with
                        | Unfinished => Still_running
                        | Raised e => Crashed e
                        | Returned (saved, _) => Download job_id saved
                        end
                      else No_result
                  end
            end
      end
  end.

End client.

Module ClientSpec.
Import Py generate_3d_hunyuan client.

(** An observation that keeps [poll_job] polling: in time, answered, and
    either not 200 or a JSON object whose status is neither ["completed"]
    nor ["failed"]. *)
Definition keeps_polling (start : float) (timeout : Z)
    (o : float * reply) : Prop :=
  within start o.1 timeout = true ∧
  ∃ response, o.2 = inr response ∧
    (status_code response ≠ 200 ∨
     ∃ d, json_body response = Some (VDict d) ∧
          eq_str (get d "status" VNone) "completed" = false ∧
          eq_str (get d "status" VNone) "failed" = false).

(** An observation that keeps [wait_for_server] waiting: in time, and
    either a refused connection or an answer other than 200. *)
Definition keeps_waiting (start : float) (timeout : Z)
    (o : float * reply) : Prop :=
  within start o.1 timeout = true ∧
  (o.2 = inl ConnectionError ∨
   ∃ response, o.2 = inr response ∧ status_code response ≠ 200).

(** The clock has passed the timeout at this observation. *)
Definition out_of_time (start : float) (timeout : Z) (o : float * reply)
    : Prop :=
  within start o.1 timeout = false.

(** The data of a completed job, as [poll_job] returns it. *)
Definition completed_job (data : value) : Prop :=
  ∃ d, data = VDict d ∧ d !! "status" = Some (VStr "completed").

End ClientSpec.

Module MainSpec.
Import Py generate_3d_hunyuan client ClientSpec.

(** Every step of [main] succeeded for the job [job_id], and the download
    left [saved] (the content written, if the status was 200). *)
Definition every_step_succeeded (w : world) (job_id : value)
    (saved : option string) : Prop :=
  wait_for_server (status_start w) 60 (status_observations w) = Returned true ∧
  ∃ posted file_id data response,
    upload_image (image w) = inr posted ∧
    field_of_reply "file_id" (upload_server w posted) = Returned file_id ∧
    truthy file_id = true ∧
    field_of_reply "job_id"
      (generation_server w (generation_payload file_id default_model))
      = Returned job_id ∧
    truthy job_id = true ∧
    poll_job (poll_start w job_id) 1200 (poll_observations w job_id)
      = Returned (Some data) ∧
    completed_job data ∧
    download_server w job_id = inr response ∧
    saved = if status_code response =? 200 then Some (content response)
            else None.

End MainSpec.

(** * Properties *)

Import Py pathlib Spec.

(** The theorems hold for every case mapping; the closed examples, on ASCII
    text, are evaluated with the ASCII one. *)
#[global] Existing Instance ascii_case.

(** ** Request validation *)

Lemma in_str_list_VStr (fmt : string) (l : list string) :
  in_str_list (VStr fmt) l = existsb (String.eqb fmt) l.
Proof. reflexivity. Qed.

(** Both [_process_request] methods raise exactly what [check] reports. *)
(** The steps shared by the proofs that follow the checks of
    [_process_request] one by one. *)
Ltac unfold_process :=
  unfold check, verdict_exn, retopo, uv, run, input_formats, output_formats,
    retopo_models._process_request, uv_models._process_request,
    requested_output_format, input_format, exists_, of_value, raise,
    mbind, M_bind, mret, M_ret, in_str_list in *.

Ltac follow_checks :=
  unfold_process; simpl in *;
  repeat (case_match; simpl in *; try done; try congruence).

Lemma retopo_check_exn `{!CaseMapping} self fs inputs e :
  verdict_exn (retopo self) (check (retopo self) fs inputs) = Some e →
  retopo_models._process_request self fs inputs = inl e.
Proof. follow_checks; congruence. Qed.

Lemma uv_check_exn `{!CaseMapping} self fs inputs e :
  verdict_exn (uv self) (check (uv self) fs inputs) = Some e →
  uv_models._process_request self fs inputs = inl e.
Proof. follow_checks; congruence. Qed.

Lemma retopo_check_accepted `{!CaseMapping} self fs inputs p fmt :
  check (retopo self) fs inputs = Accepted p fmt →
  returns (retopo_models._process_request self fs inputs).
Proof. unfold returns. follow_checks; eauto. Qed.

Lemma uv_check_accepted `{!CaseMapping} self fs inputs p fmt :
  check (uv self) fs inputs = Accepted p fmt →
  returns (uv_models._process_request self fs inputs).
Proof. unfold returns. follow_checks; eauto. Qed.

Lemma retopo_follows_check `{!CaseMapping} self : follows_check (retopo self).
Proof.
  intros fs inputs.
  destruct (verdict_exn _ _) eqn:E.
  - by apply retopo_check_exn.
  - destruct (check _ _ _) eqn:C; try discriminate.
    by eapply retopo_check_accepted.
Qed.

Lemma uv_follows_check `{!CaseMapping} self : follows_check (uv self).
Proof.
  intros fs inputs.
  destruct (verdict_exn _ _) eqn:E.
  - by apply uv_check_exn.
  - destruct (check _ _ _) eqn:C; try discriminate.
    by eapply uv_check_accepted.
Qed.

Lemma check_facts `{!CaseMapping} m fs inputs :
  verdict_facts m fs inputs (check m fs inputs).
Proof.
  unfold check, mesh_path_is.
  destruct (inputs !! "mesh_path") as [x|] eqn:Hx; [|done].
  destruct x as [| | | |s| |]; try (by eexists; split; [done|congruence]).
  simpl. destruct (exists_ fs (parse s)) as [e|[]] eqn:Hfs;
    [by exists s | | by exists s].
  destruct (existsb _ (input_formats m)) eqn:Hin; [|by exists s].
  assert (∃ s0, mesh_path_is inputs s0 ∧ parse s = parse s0) as Hs
    by by exists s.
  destruct (requested_output_format inputs) as [| | | |fmt| |] eqn:Hout;
    try done.
  destruct (existsb _ (output_formats m)) eqn:Hof; simpl; [|done].
  by repeat split.
Qed.

Lemma mesh_path_is_inj inputs s1 s2 :
  mesh_path_is inputs s1 → mesh_path_is inputs s2 → s1 = s2.
Proof. unfold mesh_path_is. congruence. Qed.

Lemma check_validation_error_iff `{!CaseMapping} m : follows_check m → validation_error_iff m.
Proof.
  intros Hrun fs inputs. specialize (Hrun fs inputs).
  pose proof (check_facts m fs inputs) as F.
  unfold raises_ValueError, returns, input_format_unsupported,
    mesh_file_exists, output_format_unsupported, mesh_path_absent in *.
  destruct (check m fs inputs) as [| |e0|p|p|p x|p fmt]; simpl in Hrun, F.
  - (* no mesh_path *)
    split; [split; eauto|]. intros Hn. by destruct Hn.
  - (* mesh_path is not a str *)
    destruct F as (x & Hx & Hns). split; [split|].
    + intros [e He]. congruence.
    + unfold mesh_path_absent, mesh_path_is.
      intros [?|[(s & ? & _)|[(s & ? & _) _]]]; [congruence| |];
        destruct (Hns s); congruence.
    + intros _ _ _ (s & Hs & _). destruct (Hns s).
      unfold mesh_path_is in Hs. congruence.
  - (* stat fails *)
    destruct F as (s & Hs & Hfs).
    assert (∀ s', mesh_path_is inputs s' → exists_ fs (parse s') ≠ inr true)
      as Hno.
    { intros s' Hs'. rewrite <- (mesh_path_is_inj _ _ _ Hs Hs'). congruence. }
    assert (∀ v, e0 ≠ ValueError v) as Hne.
    { intros v ->. unfold exists_ in Hfs. by destruct (fs (str (parse s))). }
    split; [split|].
    + intros [e He]. rewrite Hrun in He. injection He as ->. by destruct (Hne e).
    + intros [Ha|[(s' & Hs' & Hfs' & _)|[(s' & Hs' & Hfs') _]]].
      * unfold mesh_path_is in Hs. congruence.
      * by destruct (Hno s' Hs').
      * by destruct (Hno s' Hs').
    + intros _ _ _ (s' & Hs' & Hfs'). by destruct (Hno s' Hs').
  - (* no such file *)
    destruct F as (s & Hs & -> & Hfs). split; [split|].
    + intros [e He]. congruence.
    + intros [Ha|[(s' & Hs' & Hfs' & _)|[(s' & Hs' & Hfs') _]]].
      * unfold mesh_path_is in Hs. congruence.
      * rewrite (mesh_path_is_inj _ _ _ Hs Hs') in Hfs. congruence.
      * rewrite (mesh_path_is_inj _ _ _ Hs Hs') in Hfs. congruence.
    + intros _ _ _ (s' & Hs' & Hfs').
      rewrite (mesh_path_is_inj _ _ _ Hs Hs') in Hfs. congruence.
  - (* input format *)
    destruct F as (s & Hs & -> & Hfs & Hin). split; [split; eauto|].
    + intros _. right; left. by exists s.
    + intros _ Hn. destruct Hn. by exists s.
  - (* output format *)
    destruct F as ((s & Hs & ->) & Hfs & Hin & Hout & Hof). split; [split; eauto|].
    + intros _. right; right. split; [by exists s|]. by rewrite Hout.
    + intros _ _ Hn. destruct Hn. by rewrite Hout.
  - (* accepted *)
    destruct F as ((s & Hs & ->) & Hfs & Hin & Hout & Hof). split; [split|done].
    + intros [e He]. destruct Hrun as [a Ha]. congruence.
    + intros [Ha|[(s' & Hs' & _ & Hin')|[_ Hof']]].
      * unfold mesh_path_is in Hs. congruence.
      * rewrite (mesh_path_is_inj _ _ _ Hs' Hs) in Hin'. congruence.
      * rewrite Hout in Hof'. simpl in Hof'. congruence.
Qed.

(** C1 (amended): [_process_request] of either model raises [ValueError]
    exactly when ["mesh_path"] is absent, or the existing input file has a
    lowercased extension outside [supported_input_formats], or the file
    exists and the requested [output_format] (["obj"] by default) is outside
    [supported_output_formats]; when none of these holds and the file
    exists, the call returns a result. *)
Theorem process_request_validation_errors `{!CaseMapping}
    (r : retopo_models.MeshRetopologyModel) (u : uv_models.UVUnwrappingModel) :
  validation_error_iff (retopo r) ∧ validation_error_iff (uv u).
Proof.
  split; apply check_validation_error_iff.
  - apply retopo_follows_check.
  - apply uv_follows_check.
Qed.

(** C1 as stated fails: with a missing file and an unsupported
    [output_format] the third cause holds, yet the call raises
    [FileNotFoundError], not [ValueError]. *)
Lemma validation_errors_as_stated_fail :
  ¬ validation_error_iff_as_stated (retopo Samples.fastmesh) ∧
  ¬ validation_error_iff_as_stated (uv Samples.partuv).
Proof.
  split; intros H;
    destruct (H Samples.no_files Samples.missing_and_invalid) as [[_ Hr] _];
    destruct Hr as [e He]; [right; right; reflexivity | discriminate
                           |right; right; reflexivity | discriminate].
Qed.

(** ** Missing files *)








Example long_name_raises_OSError :
  run (retopo Samples.fastmesh) Samples.short_names_only Samples.long_mesh_path
  = inl (OSError 36).
Proof. by vm_compute. Qed.

(** A [mesh_path] that is not a string is refused by [Path] itself. *)
Example mesh_path_not_a_string :
  run (retopo Samples.fastmesh) Samples.two_meshes
    (Samples.request [("mesh_path", VInt 7)]) = inl TypeError.
Proof. reflexivity. Qed.

(** ** Letter case *)

Lemma lower_empty `{!CaseMapping} : lower "" = "".
Proof. by rewrite lower_ascii_only. Qed.

(** Lowering and stripping the leading dots commute, for every case
    mapping. *)
Lemma lower_lstrip_dot `{!CaseMapping} s :
  lower (lstrip dot s) = lstrip dot (lower s).
Proof.
  induction s as [|c s IH]; simpl.
  - by rewrite lower_empty.
  - destruct (Ascii.eqb_spec c dot) as [->|Hne].
    + rewrite lower_leading_dot. exact IH.
    + by rewrite lower_no_leading_dot.
Qed.

(** The input format the models read is the written extension, lowered. *)
Lemma input_format_lower_extension `{!CaseMapping} p :
  input_format p = lower (extension p).
Proof. unfold input_format, extension. by rewrite lower_lstrip_dot. Qed.

Lemma check_input_accepted `{!CaseMapping} m fs inputs s :
  mesh_path_is inputs s → exists_ fs (parse s) = inr true →
  existsb (String.eqb (lower (extension (parse s)))) (input_formats m) = true →
  ∀ e, verdict_exn m (check m fs inputs) = Some (ValueError e) →
       ∃ v, e = unsupported_output_format v.
Proof.
  unfold check, mesh_path_is. intros -> Hfs Hin e. simpl.
  rewrite Hfs, input_format_lower_extension, Hin.
  repeat case_match; simpl; intros; simplify_eq; eauto.
Qed.

(** C4: an existing input file whose extension, lowercased, is listed in
    [supported_input_formats] is never refused for its input format by
    either model, however the extension is capitalised in [mesh_path]. *)
Theorem input_extension_case_insensitive `{!CaseMapping}
    (r : retopo_models.MeshRetopologyModel) (u : uv_models.UVUnwrappingModel)
    (fs : filesystem) (inputs : dict) (s : string) :
  mesh_path_is inputs s →
  exists_ fs (parse s) = inr true →
  (lower (extension (parse s)) ∈ retopo_models.supported_input_formats r →
   ¬ raises_unsupported_input (run (retopo r) fs inputs)) ∧
  (lower (extension (parse s)) ∈ uv_models.supported_input_formats u →
   ¬ raises_unsupported_input (run (uv u) fs inputs)).
Proof.
  intros Hs Hfs.
  assert (∀ m, follows_check m → lower (extension (parse s)) ∈ input_formats m →
               ¬ raises_unsupported_input (run m fs inputs)) as Hm.
  { intros m Hm Hin (f & l & Hrun).
    assert (existsb (String.eqb (lower (extension (parse s))))
              (input_formats m) = true) as Hex.
    { apply existsb_exists. exists (lower (extension (parse s))).
      split; [by apply list_elem_of_In | apply String.eqb_refl]. }
    pose proof (check_input_accepted m fs inputs s Hs Hfs Hex) as Hc.
    specialize (Hm fs inputs).
    destruct (verdict_exn m (check m fs inputs)) as [e|].
    - rewrite Hm in Hrun. injection Hrun as ->.
      destruct (Hc _ eq_refl) as [v Hv]. discriminate.
    - destruct Hm as [a Ha]. congruence. }
  split.
  - apply (Hm (retopo r)), retopo_follows_check.
  - apply (Hm (uv u)), uv_follows_check.
Qed.

Lemma input_extension_case_insensitive_witness :
  ¬ raises_unsupported_input
      (run (retopo Samples.fastmesh) Samples.two_meshes Samples.upper_case_input) ∧
  ¬ raises_unsupported_input
      (run (uv Samples.partuv) Samples.two_meshes Samples.upper_case_input).
Proof.
  destruct (input_extension_case_insensitive Samples.fastmesh Samples.partuv
              Samples.two_meshes Samples.upper_case_input "/data/Model.OBJ"
              eq_refl eq_refl) as [Hr Hu].
  split; [apply Hr | apply Hu]; apply list_elem_of_In; vm_compute; auto.
Defined.

(** The upper-case extension is accepted, and the request succeeds. *)
Example upper_case_input_accepted :
  returns (run (retopo Samples.fastmesh) Samples.two_meshes
             Samples.upper_case_input).
Proof. eexists. reflexivity. Qed.

(** ** Output formats are matched exactly *)

Lemma existsb_eqb_elem_of (x : string) (l : list string) :
  existsb (String.eqb x) l = true ↔ x ∈ l.
Proof.
  rewrite existsb_exists, list_elem_of_In. split.
  - intros (y & Hy & Heq). apply String.eqb_eq in Heq. by subst.
  - intros Hx. exists x. split; [done | apply String.eqb_refl].
Qed.

Lemma in_str_list_listed formats inputs :
  in_str_list (requested_output_format inputs) formats = true ↔
  output_format_listed formats inputs.
Proof.
  unfold output_format_listed.
  destruct (requested_output_format inputs) as [| | | |fmt| |] eqn:E; simpl;
    try (split; [done | by intros (? & ? & _)]).
  rewrite existsb_eqb_elem_of. split; [by eauto|].
  intros (fmt' & Heq & Hin). by simplify_eq.
Qed.

Lemma check_output_exact `{!CaseMapping} m : follows_check m → output_match_exact m.
Proof.
  intros Hrun fs inputs (s & Hs & Hfs & Hin). specialize (Hrun fs inputs).
  rewrite <- in_str_list_listed.
  unfold check, raises_unsupported_output, returns in *.
  unfold mesh_path_is in Hs. rewrite Hs in Hrun. simpl in Hrun.
  rewrite Hfs, Hin in Hrun.
  destruct (requested_output_format inputs) as [| | | |fmt| |] eqn:E; simpl in *;
    try (split; split; [by eauto | by eauto | done | intros [a Ha]; congruence]).
  destruct (existsb (String.eqb fmt) (output_formats m)) eqn:Hof; simpl in Hrun.
  - split; split; try done.
    + intros [v Hv]. destruct Hrun as [a Ha]. congruence.
  - split; split; try done; [by eauto | intros [a Ha]; congruence].
Qed.

(** C5 (amended): for a request whose input file is validated, either model
    refuses the requested [output_format] exactly when it is not, letter for
    letter, an entry of [supported_output_formats], and returns a result
    exactly when it is one: the match is case-sensitive. *)
Theorem output_format_matched_exactly `{!CaseMapping}
    (r : retopo_models.MeshRetopologyModel) (u : uv_models.UVUnwrappingModel) :
  output_match_exact (retopo r) ∧ output_match_exact (uv u).
Proof.
  split; apply check_output_exact.
  - apply retopo_follows_check.
  - apply uv_follows_check.
Qed.

(** C5 as stated fails: ["OBJ"] differs from the supported ["obj"] only in
    letter case and is refused by both models. *)
Lemma output_case_insensitive_fails :
  ¬ output_case_insensitive_as_stated (retopo Samples.fastmesh) ∧
  ¬ output_case_insensitive_as_stated (uv Samples.partuv).
Proof.
  split; intros H;
    apply (H Samples.two_meshes Samples.upper_case_output "OBJ" "obj");
    try reflexivity;
    try (by exists "/data/Model.OBJ");
    try (apply list_elem_of_In; vm_compute; auto);
    by exists (VStr "OBJ").
Qed.

(** ** Paths: [parse], [str] and the output file name *)

Import PathSpec.

Lemma mem_char_app c a b : mem_char c (a ++ b) = mem_char c a || mem_char c b.
Proof.
  induction a as [|x a IH]; [done|]. simpl. rewrite IH. by rewrite orb_assoc.
Qed.

Lemma split_cons c s : ∃ h t, split c s = h :: t.
Proof.
  induction s as [|a s (h & t & IH)]; simpl; [by eauto|].
  destruct (Ascii.eqb a c); [by eauto|]. rewrite IH. by eauto.
Qed.

(** No piece of a split contains the separator. *)
Lemma split_no_sep c s : Forall (λ x, mem_char c x = false) (split c s).
Proof.
  induction s as [|a s IH]; simpl; [by repeat constructor|].
  destruct (Ascii.eqb a c) eqn:E; [by constructor|].
  destruct (split c s) as [|h t]; [by repeat constructor; simpl; rewrite E|].
  inversion IH; subst. constructor; [|done]. simpl. by rewrite E.
Qed.

Lemma split_no_sep_id c s : mem_char c s = false → split c s = [s].
Proof.
  induction s as [|a s IH]; simpl; [done|].
  intros [Ha Hs]%orb_false_iff. rewrite Ha, (IH Hs). done.
Qed.

Lemma split_app_sep c a b :
  mem_char c a = false → split c (a ++ String c b) = a :: split c b.
Proof.
  induction a as [|x a IH]; simpl.
  - intros _. by rewrite Ascii.eqb_refl.
  - intros [Hx Ha]%orb_false_iff. rewrite Hx, (IH Ha). done.
Qed.

(** Splitting a joined list of separator-free pieces gives the list back. *)
Lemma split_join (l : list string) :
  l ≠ [] → Forall (λ x, mem_char sep x = false) l →
  split sep (join "/" l) = l.
Proof.
  induction l as [|x l IH]; [done|]. intros _ Hl.
  inversion Hl as [|? ? Hx Hl']; subst.
  destruct l as [|y l]; simpl.
  - by apply split_no_sep_id.
  - change (split sep (x ++ String sep (join "/" (y :: l))) = x :: y :: l).
    rewrite (split_app_sep _ _ _ Hx). f_equal. by apply IH.
Qed.

Lemma filter_components l :
  Forall component l → filter (λ x, is_component x = true) l = l.
Proof.
  induction 1 as [|x l [Hx _] _ IH]; [done|].
  rewrite filter_cons_True by done. by f_equal.
Qed.

Lemma components_of_split rel :
  Forall component (filter (λ x, is_component x = true) (split sep rel)).
Proof.
  apply Forall_forall. intros x [Hx Hin]%list_elem_of_filter.
  split; [done|].
  pose proof (split_no_sep sep rel) as Hall.
  rewrite Forall_forall in Hall. by apply Hall.
Qed.

Lemma splitroot_root s :
  (splitroot s).1 = "" ∨ (splitroot s).1 = "/" ∨ (splitroot s).1 = "//".
Proof.
  unfold splitroot. destruct s as [|a s]; [by left|].
  destruct (Ascii.eqb a sep); [|by left].
  destruct (_ =? 2); simpl; auto.
Qed.

(** [parse] produces paths in normal form. *)
Lemma parse_normal s : normal (parse s).
Proof.
  unfold parse, normal. pose proof (splitroot_root s) as Hr.
  destruct (splitroot s) as [r rel]; simpl in *.
  split; [done | apply components_of_split].
Qed.

Lemma component_head x :
  component x → ∃ a t, x = String a t ∧ Ascii.eqb a sep = false.
Proof.
  intros [Hc Hs]. destruct x as [|a t]; [done|].
  simpl in Hs. apply orb_false_iff in Hs as [Ha _]. by eauto.
Qed.

(** A joined list of components is empty only for the empty list, and does
    not start with a separator. *)
Lemma join_components_head l :
  Forall component l →
  match l with
  | [] => join "/" l = ""
  | _ => ∃ a t, join "/" l = String a t ∧ Ascii.eqb a sep = false
  end.
Proof.
  destruct 1 as [|x l Hx Hl]; [done|].
  destruct (component_head x Hx) as (a & t & -> & Ha).
  destruct l; simpl; eauto.
Qed.

Lemma names_of_join l :
  Forall component l →
  filter (λ x, is_component x = true) (split sep (join "/" l)) = l.
Proof.
  intros Hl. destruct l as [|x l]; [done|].
  rewrite split_join; [by apply filter_components|done|].
  eapply Forall_impl; [exact Hl|]. by intros ? [_ ?].
Qed.

Lemma len_String a s : len (String a s) = len s + 1.
Proof. unfold len. simpl. lia. Qed.

Lemma parse_relative a t :
  Ascii.eqb a sep = false → parse (String a t) = parsed "" (String a t).
Proof. intros Ha. unfold parse, splitroot. by rewrite Ha. Qed.

Lemma parse_rooted j :
  lstrip sep j = j → parse (String sep j) = parsed "/" j.
Proof.
  intros Hj. unfold parse, splitroot.
  change (lstrip sep (String sep j)) with (lstrip sep j).
  rewrite Ascii.eqb_refl, Hj, len_String.
  by destruct (Z.eqb_spec (len j + 1 - len j) 2); [lia|].
Qed.

Lemma parse_rooted_twice j :
  lstrip sep j = j → parse (String sep (String sep j)) = parsed "//" j.
Proof.
  intros Hj. unfold parse, splitroot.
  change (lstrip sep (String sep (String sep j))) with (lstrip sep j).
  rewrite Ascii.eqb_refl, Hj, !len_String.
  by destruct (Z.eqb_spec (len j + 1 + 1 - len j) 2); [|lia].
Qed.

(** Reading back what [str] prints gives the same path. *)
Lemma parse_str q : normal q → parse (str q) = q.
Proof.
  destruct q as [r l]. intros [Hr Hl]; simpl in *.
  pose proof (join_components_head l Hl) as Hj.
  pose proof (names_of_join l Hl) as Hn.
  assert (lstrip sep (join "/" l) = join "/" l) as Hs.
  { destruct l; [done|]. destruct Hj as (a & t & -> & Ha). simpl. by rewrite Ha. }
  unfold str. cbn [root names].
  destruct Hr as [->|[->| ->]].
  - change ("" ++ join "/" l) with (join "/" l).
    destruct l as [|x l]; [reflexivity|].
    destruct Hj as (a & t & Hj & Ha). rewrite Hj in *.
    change (String.eqb (String a t) "") with false. cbv iota.
    rewrite (parse_relative _ _ Ha). unfold parsed. by rewrite Hn.
  - change ("/" ++ join "/" l) with (String sep (join "/" l)).
    change (String.eqb (String sep (join "/" l)) "") with false. cbv iota.
    rewrite (parse_rooted _ Hs). unfold parsed. by rewrite Hn.
  - change ("//" ++ join "/" l) with (String sep (String sep (join "/" l))).
    change (String.eqb (String sep (String sep (join "/" l))) "") with false.
    cbv iota.
    rewrite (parse_rooted_twice _ Hs). unfold parsed. by rewrite Hn.
Qed.

(** *** Slices and [rfind] *)

Lemma length_app (a b : string) :
  String.length (a ++ b) = (String.length a + String.length b)%nat.
Proof. induction a as [|x a IH]; simpl; [done|]. by rewrite IH. Qed.

Lemma mem_char_substring c n m s :
  mem_char c s = false → mem_char c (substring n m s) = false.
Proof.
  revert n m. induction s as [|a s IH]; intros n m Hs.
  - by destruct n, m.
  - simpl in Hs. apply orb_false_iff in Hs as [Ha Hs].
    destruct n as [|n], m as [|m]; simpl; auto.
    rewrite Ha. simpl. by apply IH.
Qed.

Lemma substring_app_r (a b : string) :
  substring (String.length a) (String.length b) (a ++ b) = b.
Proof.
  induction a as [|x a IH]; [|exact IH].
  change (substring 0 (String.length b) b = b).
  induction b as [|y b IHb]; [done|]. simpl. by rewrite IHb.
Qed.

Lemma rfind_absent c s : mem_char c s = false → rfind c s = -1.
Proof.
  induction s as [|a s IH]; simpl; [done|].
  intros [Ha Hs]%orb_false_iff. by rewrite (IH Hs), Ha.
Qed.

Lemma rfind_range c s : -1 ≤ rfind c s < len s.
Proof.
  induction s as [|a s IH]; [unfold len; simpl; lia|].
  rewrite len_String. simpl.
  destruct (Z.leb_spec 0 (rfind c s)); [lia|].
  destruct (Ascii.eqb a c); lia.
Qed.

(** The last occurrence of [c] in [a ++ c :: b], when [b] has none. *)
Lemma rfind_app_last c a b :
  mem_char c b = false → rfind c (a ++ String c b) = len a.
Proof.
  intros Hb. induction a as [|x a IH].
  - simpl. by rewrite (rfind_absent _ _ Hb), Ascii.eqb_refl.
  - rewrite len_String. simpl. rewrite IH.
    destruct (Z.leb_spec 0 (len a)); [done|]. unfold len in *. lia.
Qed.

(** *** The output path *)

Lemma name_no_sep p : normal p → mem_char sep (name p) = false.
Proof.
  intros [_ Hl]. unfold name.
  induction Hl as [|x l [_ Hx] Hl IH]; [done|].
  destruct l; [done|]. exact IH.
Qed.

Lemma stem_no_sep p : normal p → mem_char sep (stem p) = false.
Proof.
  intros Hp. pose proof (name_no_sep p Hp) as Hn. unfold stem.
  destruct (_ && _); [|done]. by apply mem_char_substring.
Qed.

(** The output name is a single path component, provided the format holds
    no separator. *)
Lemma output_name_component a prefix p fmt :
  Ascii.eqb a sep = false → Ascii.eqb a dot = false →
  mem_char sep prefix = false →
  normal p → mem_char sep fmt = false →
  component (output_name (String a prefix) p fmt).
Proof.
  intros Ha Hd Hpre Hp Hfmt. split.
  - unfold is_component, output_name. simpl.
    destruct (Ascii.eqb_spec a "."%char) as [->|]; [done|].
    by destruct (prefix ++ stem p ++ "." ++ fmt).
  - unfold output_name. simpl. rewrite Ha. simpl.
    rewrite !mem_char_app. rewrite Hpre, (stem_no_sep p Hp), Hfmt. done.
Qed.

Lemma parse_component x : component x → parse x = {| root := ""; names := [x] |}.
Proof.
  intros Hx. destruct (component_head x Hx) as (a & t & -> & Ha).
  rewrite (parse_relative _ _ Ha). unfold parsed.
  destruct Hx as [Hc Hs]. rewrite (split_no_sep_id _ _ Hs).
  by rewrite filter_cons_True.
Qed.

Lemma truediv_component p x :
  component x → truediv p x = {| root := root p; names := (names p ++ [x])%list |}.
Proof. intros Hx. unfold truediv. by rewrite (parse_component x Hx). Qed.

Lemma parent_normal p : normal p → normal (parent p).
Proof.
  intros [Hr Hl]. split; [done|]. simpl.
  induction Hl as [|x l Hx Hl IH]; [constructor|].
  destruct l; [constructor|]. simpl. constructor; [done|exact IH].
Qed.

Lemma truediv_normal p x : normal p → component x → normal (truediv p x).
Proof.
  intros [Hr Hl] Hx. rewrite (truediv_component p x Hx).
  split; [done|]. simpl. apply Forall_app. split; [done|].
  constructor; [exact Hx | constructor].
Qed.

Import ResultSpec.

Lemma append_assoc (a b c : string) : (a ++ b) ++ c = a ++ b ++ c.
Proof.
  induction a as [|x a IH]; [done|].
  change (String x ((a ++ b) ++ c) = String x (a ++ b ++ c)). by f_equal.
Qed.

Lemma removelast_snoc {A} (l : list A) x : removelast (l ++ [x]) = l.
Proof. apply removelast_last. Qed.

(** The parent and the name of [dir / x] for a component [x]. *)
Lemma truediv_parent_name p x :
  component x →
  parent (truediv p x) = p ∧ name (truediv p x) = x.
Proof.
  intros Hx. rewrite (truediv_component p x Hx). unfold parent, name; simpl.
  rewrite removelast_snoc, last_last. by destruct p.
Qed.

(** The suffix of a name [a ++ "." ++ fmt] with a non-empty [a] and an
    extension token [fmt]. *)
Lemma suffix_of_name p a fmt :
  name p = a ++ "." ++ fmt → a ≠ "" → extension_token fmt →
  suffix p = "." ++ fmt.
Proof.
  intros Hn Ha (Hne & _ & Hdot). unfold suffix. rewrite Hn.
  change (a ++ "." ++ fmt) with (a ++ String dot fmt).
  rewrite (rfind_app_last _ _ _ Hdot).
  assert (0 < len a) as Hpos by (destruct a; [done | rewrite len_String; unfold len; lia]).
  assert (0 < len fmt) as Hf by (destruct fmt; [done | rewrite len_String; unfold len; lia]).
  assert (len (a ++ String dot fmt) = len a + 1 + len fmt) as Hlen.
  { unfold len. rewrite length_app. simpl. lia. }
  rewrite Hlen.
  destruct (Z.ltb_spec 0 (len a)); [|lia].
  destruct (Z.ltb_spec (len a) (len a + 1 + len fmt - 1)); [|lia].
  simpl. unfold slice_from, len. rewrite Nat2Z.id, length_app.
  replace (String.length a + String.length (String dot fmt) - String.length a)%nat
    with (String.length (String dot fmt)) by lia.
  apply substring_app_r.
Qed.

(** The output file of a validated request, for a prefix that starts with a
    letter [a]. *)
Lemma output_path_beside_input a prefix s fmt d :
  Ascii.eqb a sep = false → Ascii.eqb a dot = false →
  mem_char sep prefix = false →
  d !! "output_mesh_path"
    = Some (VStr (str (truediv (parent (parse s))
                         (output_name (String a prefix) (parse s) fmt)))) →
  output_beside_input (String a prefix) (parse s) fmt d.
Proof.
  intros Ha Hd Hpre Hout. eexists. split; [exact Hout|]. split; [done|].
  pose proof (parse_normal s) as Hp.
  assert (mem_char sep fmt = false →
          parse (str (truediv (parent (parse s))
                        (output_name (String a prefix) (parse s) fmt)))
          = truediv (parent (parse s))
              (output_name (String a prefix) (parse s) fmt)) as Hback.
  { intros Hfmt. apply parse_str, truediv_normal; [by apply parent_normal|].
    by apply output_name_component. }
  split.
  - intros Hfmt. rewrite (Hback Hfmt).
    by apply truediv_parent_name, output_name_component.
  - intros Htok. pose proof Htok as (_ & Hfmt & _). rewrite (Hback Hfmt).
    apply (suffix_of_name _ (String a prefix ++ stem (parse s))); [|done|done].
    destruct (truediv_parent_name (parent (parse s))
                (output_name (String a prefix) (parse s) fmt)) as [_ ->];
      [by apply output_name_component|].
    unfold output_name. by rewrite append_assoc.
Qed.

(** ** Results of accepted requests *)

Lemma validated_run `{!CaseMapping} m fs inputs p fmt :
  validated m fs inputs p fmt →
  ∃ s, inputs !! "mesh_path" = Some (VStr s) ∧ p = parse s ∧
       exists_ fs (parse s) = inr true ∧
       existsb (String.eqb (lstrip dot (lower (suffix (parse s)))))
         (input_formats m) = true ∧
       get inputs "output_format" (VStr "obj") = VStr fmt ∧
       existsb (String.eqb fmt) (output_formats m) = true.
Proof.
  intros ((s & Hs & ->) & Hfs & Hin & Hout & Hof). exists s. by repeat split.
Qed.

Lemma retopo_accepted `{!CaseMapping} r fs inputs p fmt :
  validated (retopo r) fs inputs p fmt →
  ∃ d, retopo_models._process_request r fs inputs = inr d ∧
       dom d = retopo_keys ∧
       d !! "output_mesh_path"
         = Some (VStr (str (truediv (parent p) (output_name "retopo_" p fmt)))) ∧
       d !! "output_stats"
         = Some (VDict (list_to_map [
             ("vertices",
               or_ (get inputs "target_vertex_count"
                      (of_option_int (retopo_models.target_vertex_count r)))
                   (VInt 0));
             ("faces", VInt 0)])) ∧
       d !! "retopology_info"
         = Some (VDict (list_to_map [
             ("success", VBool true);
             ("target_vertex_count",
               get inputs "target_vertex_count"
                 (of_option_int (retopo_models.target_vertex_count r)))])).
Proof.
  intros (s & Hs & -> & Hfs & Hin & Hout & Hof)%validated_run.
  unfold retopo_models._process_request, of_value, in_str_list.
  simpl in Hin, Hof. rewrite Hs. simpl. rewrite Hfs. simpl. rewrite Hin. simpl.
  rewrite Hout, Hof. simpl.
  eexists. split; [reflexivity|]. repeat split; try reflexivity.
Qed.

Lemma uv_accepted `{!CaseMapping} u fs inputs p fmt :
  validated (uv u) fs inputs p fmt →
  ∃ d, uv_models._process_request u fs inputs = inr d ∧
       dom d = uv_keys ∧
       d !! "output_mesh_path"
         = Some (VStr (str (truediv (parent p) (output_name "uv_" p fmt)))) ∧
       d !! "uv_info"
         = Some (VDict (list_to_map [
             ("success", VBool true);
             ("distortion_threshold",
               get inputs "distortion_threshold"
                 (VFloat (uv_models.distortion_threshold u)));
             ("pack_method", get inputs "pack_method" (VStr "blender"))])).
Proof.
  intros (s & Hs & -> & Hfs & Hin & Hout & Hof)%validated_run.
  unfold uv_models._process_request, of_value, in_str_list.
  simpl in Hin, Hof. rewrite Hs. simpl. rewrite Hfs. simpl. rewrite Hin. simpl.
  rewrite Hout, Hof. simpl.
  eexists. split; [reflexivity|]. repeat split; try reflexivity.
Qed.

Lemma validated_parse `{!CaseMapping} m fs inputs p fmt :
  validated m fs inputs p fmt → ∃ s, p = parse s.
Proof. intros ((s & _ & ->) & _). by exists s. Qed.

(** C3 (amended): for a request that passes validation,
    [_process_request] of [MeshRetopologyModel] returns a mapping with the
    keys [output_mesh_path], [original_stats], [output_stats] and
    [retopology_info], and that of [UVUnwrappingModel] one with the keys
    [output_mesh_path], [packed_mesh_path], [num_components], [distortion]
    and [uv_info]; in both, [output_mesh_path] is the parent directory of the
    input mesh joined with ["retopo_"] (respectively ["uv_"]), the input
    stem, a dot and the requested output format.  Read back as a path, it
    lies in that parent directory under that name when the format holds no
    separator, and has the format as its extension when the format is not
    empty and holds neither a separator nor a dot. *)
Theorem process_request_result `{!CaseMapping}
    (r : retopo_models.MeshRetopologyModel) (u : uv_models.UVUnwrappingModel)
    (fs : filesystem) (inputs : dict) (p : Path) (fmt : string) :
  (validated (retopo r) fs inputs p fmt →
   ∃ d, run (retopo r) fs inputs = inr d ∧ dom d = retopo_keys ∧
        output_beside_input "retopo_" p fmt d) ∧
  (validated (uv u) fs inputs p fmt →
   ∃ d, run (uv u) fs inputs = inr d ∧ dom d = uv_keys ∧
        output_beside_input "uv_" p fmt d).
Proof.
  split; intros Hv; destruct (validated_parse _ _ _ _ _ Hv) as [s ->].
  - destruct (retopo_accepted r fs inputs _ fmt Hv) as (d & Hd & Hk & Ho & _).
    exists d. repeat split; [done..|].
    by apply output_path_beside_input.
  - destruct (uv_accepted u fs inputs _ fmt Hv) as (d & Hd & Hk & Ho & _).
    exists d. repeat split; [done..|].
    by apply output_path_beside_input.
Qed.

Lemma furry_validated_retopo :
  validated (retopo Samples.fastmesh) Samples.two_meshes Samples.furry
    (parse "assets/example_mesh/typical_creature_furry.obj") "obj".
Proof.
  split; [by exists "assets/example_mesh/typical_creature_furry.obj"|].
  by repeat split.
Qed.

Lemma furry_validated_uv :
  validated (uv Samples.partuv) Samples.two_meshes Samples.furry
    (parse "assets/example_mesh/typical_creature_furry.obj") "obj".
Proof.
  split; [by exists "assets/example_mesh/typical_creature_furry.obj"|].
  by repeat split.
Qed.

Lemma process_request_result_witness :
  (∃ d, run (retopo Samples.fastmesh) Samples.two_meshes Samples.furry = inr d ∧
        dom d = retopo_keys ∧
        d !! "output_mesh_path"
          = Some (VStr "assets/example_mesh/retopo_typical_creature_furry.obj")) ∧
  (∃ d, run (uv Samples.partuv) Samples.two_meshes Samples.furry = inr d ∧
        dom d = uv_keys ∧
        d !! "output_mesh_path"
          = Some (VStr "assets/example_mesh/uv_typical_creature_furry.obj")).
Proof.
  destruct (process_request_result Samples.fastmesh Samples.partuv
              Samples.two_meshes Samples.furry
              (parse "assets/example_mesh/typical_creature_furry.obj") "obj")
    as [Hr Hu].
  split.
  - destruct (Hr furry_validated_retopo) as (d & Hd & Hk & out & Ho & -> & _).
    exists d. by repeat split.
  - destruct (Hu furry_validated_uv) as (d & Hd & Hk & out & Ho & -> & _).
    exists d. by repeat split.
Defined.

Lemma tar_request_validated :
  validated (retopo Samples.tar_retopo) Samples.two_meshes Samples.tar_request
    (parse "/data/Model.OBJ") "tar.gz" ∧
  validated (uv Samples.tar_uv) Samples.two_meshes Samples.tar_request
    (parse "/data/Model.OBJ") "tar.gz".
Proof.
  split; (split; [by exists "/data/Model.OBJ"|]); by repeat split.
Qed.

(** C3 as stated fails: with ["tar.gz"] among the supported output formats,
    the output of a validated request is [/data/retopo_Model.tar.gz]
    (respectively [/data/uv_Model.tar.gz]), whose extension is [.gz]. *)
Lemma result_as_stated_fails :
  ¬ result_as_stated (retopo Samples.tar_retopo) retopo_keys "retopo_" ∧
  ¬ result_as_stated (uv Samples.tar_uv) uv_keys "uv_".
Proof.
  destruct tar_request_validated as [Hr Hu].
  split; intros Hall.
  - destruct (Hall _ _ _ _ Hr) as (d & Hd & _ & out & Ho & _ & _ & Hsuf).
    destruct (retopo_accepted _ _ _ _ _ Hr) as (d' & Hd' & _ & Ho' & _).
    simpl in Hd. rewrite Hd' in Hd. injection Hd as <-.
    rewrite Ho' in Ho. injection Ho as <-.
    vm_compute in Hsuf. discriminate.
  - destruct (Hall _ _ _ _ Hu) as (d & Hd & _ & out & Ho & _ & _ & Hsuf).
    destruct (uv_accepted _ _ _ _ _ Hu) as (d' & Hd' & _ & Ho' & _).
    simpl in Hd. rewrite Hd' in Hd. injection Hd as <-.
    rewrite Ho' in Ho. injection Ho as <-.
    vm_compute in Hsuf. discriminate.
Qed.

Lemma nested_request_validated :
  validated (retopo Samples.nested_retopo) Samples.two_meshes
    Samples.nested_request (parse "/data/Model.OBJ") "a/b".
Proof. split; [by exists "/data/Model.OBJ"|]. by repeat split. Qed.

(** A format with a separator moves the output out of the parent
    directory of the input. *)
Example nested_format_leaves_the_directory :
  ∃ d,
    run (retopo Samples.nested_retopo) Samples.two_meshes Samples.nested_request
      = inr d ∧
    d !! "output_mesh_path" = Some (VStr "/data/retopo_Model.a/b") ∧
    str (parent (parse "/data/retopo_Model.a/b")) = "/data/retopo_Model.a" ∧
    str (parent (parse "/data/Model.OBJ")) = "/data".
Proof.
  destruct (retopo_accepted _ _ _ _ _ nested_request_validated)
    as (d & Hd & _ & Ho & _).
  exists d. split; [exact Hd|]. split; [|split; by vm_compute].
  rewrite Ho. by vm_compute.
Qed.

(** ** The target vertex count *)

Import TargetSpec.

Lemma get_resolved_target r inputs :
  get inputs "target_vertex_count"
    (of_option_int (retopo_models.target_vertex_count r))
  = resolved_target r inputs.
Proof. reflexivity. Qed.

(** C8 (amended): in [MeshRetopologyModel._process_request] a
    ["target_vertex_count"] key of the inputs, whatever its value, overrides
    the constructor's value; [retopology_info["target_vertex_count"]] is the
    resolved value, and [output_stats["vertices"]] is the resolved value when
    it is truthy and 0 otherwise (so also for an input key set to [None]
    over a constructor value). *)
Theorem target_vertex_count_resolution `{!CaseMapping} (r : retopo_models.MeshRetopologyModel) :
  target_override r ∧
  (∀ inputs v, inputs !! "target_vertex_count" = Some v →
               resolved_target r inputs = v) ∧
  (∀ inputs, inputs !! "target_vertex_count" = None →
             resolved_target r inputs
             = of_option_int (retopo_models.target_vertex_count r)).
Proof.
  split; [|split].
  - intros fs inputs p fmt Hv.
    destruct (retopo_accepted r fs inputs p fmt Hv) as (d & Hd & _ & _ & Hs & Hi).
    exists d. split; [done|]. rewrite get_resolved_target in Hs, Hi.
    eexists _, _. split; [exact Hs|]. split; [|split; [exact Hi|]]; reflexivity.
  - intros inputs v Hv. unfold resolved_target. by rewrite Hv.
  - intros inputs Hv. unfold resolved_target. by rewrite Hv.
Qed.

Lemma explicit_none_validated :
  validated (retopo Samples.fastmesh) Samples.two_meshes
    Samples.explicit_none_target (parse "/data/Model.OBJ") "obj".
Proof. split; [by exists "/data/Model.OBJ"|]. by repeat split. Qed.

(** C8 as stated fails: with [target_vertex_count] given as [None] to a
    model built with 1000, the statement expects the resolved [None] as
    vertex count; the result holds 0. *)
Lemma target_override_as_stated_fails :
  ¬ target_override_as_stated Samples.fastmesh.
Proof.
  intros H.
  destruct (H _ _ _ _ explicit_none_validated)
    as (d & Hd & stats & info & Hs & Hv & _).
  injection Hd as <-. injection Hs as <-. discriminate Hv.
Qed.

Example explicit_none_vertices :
  ∃ d stats,
    run (retopo Samples.fastmesh) Samples.two_meshes Samples.explicit_none_target
      = inr d ∧
    d !! "output_stats" = Some (VDict stats) ∧
    stats !! "vertices" = Some (VInt 0).
Proof. eexists _, _. split; [reflexivity|]. split; reflexivity. Qed.

(** ** Determinism *)

Import DeterminismSpec.

Lemma get_insert_ne (inputs : dict) k k' v default :
  k ≠ k' → get (<[k := v]> inputs) k' default = get inputs k' default.
Proof. intros Hne. unfold get. by rewrite lookup_insert_ne. Qed.

Lemma get_insert_eq (inputs : dict) k v default :
  get (<[k := v]> inputs) k default = v.
Proof. unfold get. by rewrite lookup_insert_eq. Qed.

Lemma retopo_depends_on `{!CaseMapping} r1 r2 fs1 fs2 inputs :
  same_retopo_attributes r1 r2 → same_mesh_file fs1 fs2 inputs →
  retopo_models._process_request r1 fs1 inputs
  = retopo_models._process_request r2 fs2 inputs.
Proof.
  intros (Hi & Ho & Ht) Hfs. unfold retopo_models._process_request, exists_.
  rewrite Hi, Ho, Ht. unfold same_mesh_file, mesh_path_is in Hfs.
  destruct (inputs !! "mesh_path") as [v|]; [|done].
  destruct v as [| | | |s| |]; try done. simpl. by rewrite (Hfs s eq_refl).
Qed.

Lemma uv_depends_on `{!CaseMapping} u1 u2 fs1 fs2 inputs :
  same_uv_attributes u1 u2 → same_mesh_file fs1 fs2 inputs →
  uv_models._process_request u1 fs1 inputs
  = uv_models._process_request u2 fs2 inputs.
Proof.
  intros (Hi & Ho & Ht) Hfs. unfold uv_models._process_request, exists_.
  rewrite Hi, Ho, Ht. unfold same_mesh_file, mesh_path_is in Hfs.
  destruct (inputs !! "mesh_path") as [v|]; [|done].
  destruct v as [| | | |s| |]; try done. simpl. by rewrite (Hfs s eq_refl).
Qed.

Lemma retopo_ignores_seed `{!CaseMapping} r fs inputs v :
  retopo_models._process_request r fs (<["seed" := v]> inputs)
  = retopo_models._process_request r fs inputs.
Proof.
  unfold retopo_models._process_request.
  rewrite lookup_insert_ne by done. by rewrite !get_insert_ne by done.
Qed.

Lemma uv_echoes_pack_method `{!CaseMapping} u fs inputs v :
  pack_method_echoed (uv u) fs inputs v.
Proof.
  unfold pack_method_echoed, uv, run, uv_models._process_request.
  rewrite lookup_insert_ne by done. rewrite !get_insert_ne by done.
  rewrite get_insert_eq.
  destruct (inputs !! "mesh_path") as [x|]; [|done].
  destruct (of_value x) as [e|p]; [done|]. simpl.
  destruct (exists_ fs p) as [e|found]; [done|]. simpl.
  destruct (negb found); [done|].
  destruct (negb (existsb _ _)); [done|].
  destruct (get inputs "output_format" (VStr "obj")); try done.
  destruct (negb (in_str_list _ _)); [done|].
  simpl. split; [done|]. intros d [= <-].
  eexists. split; [reflexivity|]. split; reflexivity.
Qed.

(** C9: [_process_request] of either model is a function of the attributes
    it reads, of the inputs and of what the file system says of the one mesh
    path; a ["seed"] input leaves the result of [MeshRetopologyModel]
    unchanged; and any ["pack_method"] value is accepted by
    [UVUnwrappingModel] without validation: it changes no error, and in the
    result only [uv_info["pack_method"]], which echoes it. *)
Theorem process_request_deterministic `{!CaseMapping} :
  (∀ r1 r2 fs1 fs2 inputs,
     same_retopo_attributes r1 r2 → same_mesh_file fs1 fs2 inputs →
     run (retopo r1) fs1 inputs = run (retopo r2) fs2 inputs) ∧
  (∀ u1 u2 fs1 fs2 inputs,
     same_uv_attributes u1 u2 → same_mesh_file fs1 fs2 inputs →
     run (uv u1) fs1 inputs = run (uv u2) fs2 inputs) ∧
  (∀ r fs inputs v,
     run (retopo r) fs (<["seed" := v]> inputs) = run (retopo r) fs inputs) ∧
  (∀ u fs inputs v, pack_method_echoed (uv u) fs inputs v).
Proof.
  split; [|split; [|split]].
  - apply retopo_depends_on.
  - apply uv_depends_on.
  - apply retopo_ignores_seed.
  - apply uv_echoes_pack_method.
Qed.

(** An unknown packing method is accepted and echoed, and a seed changes
    nothing. *)
Lemma process_request_deterministic_witness :
  (∃ d info,
     run (uv Samples.partuv) Samples.two_meshes
       (<["pack_method" := VStr "invalid_method"]> Samples.upper_case_input)
     = inr d ∧
     d !! "uv_info" = Some (VDict info) ∧
     info !! "pack_method" = Some (VStr "invalid_method")) ∧
  run (retopo Samples.fastmesh) Samples.two_meshes
    (<["seed" := VInt 42]> Samples.upper_case_input)
  = run (retopo Samples.fastmesh) Samples.two_meshes Samples.upper_case_input.
Proof.
  destruct (process_request_deterministic (H := ascii_case))
    as (_ & _ & Hseed & Hpack).
  split; [|apply Hseed].
  destruct (Hpack Samples.partuv Samples.two_meshes Samples.upper_case_input
              (VStr "invalid_method")) as [_ Hecho].
  destruct (Hecho _ eq_refl) as (info & _ & _ & ->).
  eexists _, _. split; [reflexivity|].
  split; [apply lookup_insert_eq | apply lookup_insert_eq].
Defined.

(** ** Introspection *)

Import IntrospectionSpec.

(** C6: [get_supported_formats] and [get_model_info] of either model leave
    every attribute as it was, and what they return is determined by the
    format lists, by [target_vertex_count] (respectively
    [distortion_threshold]) and by the base info; [BaseModel.get_info], which
    the sources do not include, is taken to be read-only itself. *)
Theorem introspection_is_pure (get_info : base.Method base.BaseModel dict) :
  read_only get_info →
  (read_only retopo_models.get_supported_formats ∧
   read_only (retopo_models.get_model_info get_info) ∧
   read_only uv_models.get_supported_formats ∧
   read_only (uv_models.get_model_info get_info)) ∧
  (∀ r1 r2,
     retopo_models.supported_input_formats r1
       = retopo_models.supported_input_formats r2 →
     retopo_models.supported_output_formats r1
       = retopo_models.supported_output_formats r2 →
     (retopo_models.get_supported_formats r1).1
       = (retopo_models.get_supported_formats r2).1) ∧
  (∀ r1 r2,
     retopo_models.target_vertex_count r1 = retopo_models.target_vertex_count r2 →
     (get_info (retopo_models.super r1)).1 = (get_info (retopo_models.super r2)).1 →
     (retopo_models.get_model_info get_info r1).1
       = (retopo_models.get_model_info get_info r2).1) ∧
  (∀ u1 u2,
     uv_models.supported_input_formats u1 = uv_models.supported_input_formats u2 →
     uv_models.supported_output_formats u1 = uv_models.supported_output_formats u2 →
     (uv_models.get_supported_formats u1).1
       = (uv_models.get_supported_formats u2).1) ∧
  (∀ u1 u2,
     uv_models.distortion_threshold u1 = uv_models.distortion_threshold u2 →
     (get_info (uv_models.super u1)).1 = (get_info (uv_models.super u2)).1 →
     (uv_models.get_model_info get_info u1).1
       = (uv_models.get_model_info get_info u2).1).
Proof.
  intros Hpure.
  split; [split; [|split; [|split]] | split; [|split; [|split]]].
  - by intros [].
  - intros [b i o t]. unfold retopo_models.get_model_info. simpl.
    specialize (Hpure b). destruct (get_info b) as [info b']. simpl in *.
    by subst.
  - by intros [].
  - intros [b i o t]. unfold uv_models.get_model_info. simpl.
    specialize (Hpure b). destruct (get_info b) as [info b']. simpl in *.
    by subst.
  - intros r1 r2 Hi Ho. unfold retopo_models.get_supported_formats,
      base.mthen, base.attr, base.mreturn. simpl. by rewrite Hi, Ho.
  - intros r1 r2 Ht Hb. unfold retopo_models.get_model_info.
    destruct (get_info (retopo_models.super r1)) as [i1 b1],
             (get_info (retopo_models.super r2)) as [i2 b2].
    simpl in *. by rewrite Ht, Hb.
  - intros u1 u2 Hi Ho. unfold uv_models.get_supported_formats,
      base.mthen, base.attr, base.mreturn. simpl. by rewrite Hi, Ho.
  - intros u1 u2 Ht Hb. unfold uv_models.get_model_info.
    destruct (get_info (uv_models.super u1)) as [i1 b1],
             (get_info (uv_models.super u2)) as [i2 b2].
    simpl in *. by rewrite Ht, Hb.
Qed.

Lemma sample_get_info_read_only : read_only sample_get_info.
Proof. by intros []. Qed.

Lemma introspection_is_pure_witness :
  (retopo_models.get_model_info sample_get_info Samples.fastmesh).2
    = Samples.fastmesh ∧
  (uv_models.get_model_info sample_get_info Samples.partuv).2 = Samples.partuv.
Proof.
  destruct (introspection_is_pure sample_get_info sample_get_info_read_only)
    as [(_ & Hr & _ & Hu) _].
  split; [apply Hr | apply Hu].
Defined.

(** ** The VRAM ledger *)

Section Ledger.
Import tracker.
























Example load_B_refused_while_A_resident :
  (load (after two_models_one_gpu [Load "A" 0 true]) "B" 0 true).1
  = Some InsufficientVRAMError.
Proof. vm_compute. reflexivity. Qed.


(** Reserving twice for the same model counts it twice. *)
Example double_reserve_counts_twice :
  ∃ g, gpus (after two_models_one_gpu [Reserve 0 "A" 2048; Reserve 0 "A" 2048])
         !! 0 = Some g ∧
       allocated_vram g = 4096%N ∧ resident_models g = {["A"]}.
Proof. eexists. split; [by vm_compute|]. split; by vm_compute. Qed.

End Ledger.

(** ** The 2048-pixel limit of [upload_image] *)

Import generate_3d_hunyuan UploadSpec.

Lemma digits2_pos_bounds p :
  2 ^ (Zpos (digits2_pos p) - 1) <= Zpos p < 2 ^ Zpos (digits2_pos p).
Proof.
  induction p as [p IH|p IH|]; simpl digits2_pos.
  - rewrite Pos2Z.inj_succ.
    replace (Z.succ (Zpos (digits2_pos p)) - 1) with (Z.succ (Zpos (digits2_pos p) - 1)) by lia.
    rewrite !Z.pow_succ_r by lia. lia.
  - rewrite Pos2Z.inj_succ.
    replace (Z.succ (Zpos (digits2_pos p)) - 1) with (Z.succ (Zpos (digits2_pos p) - 1)) by lia.
    rewrite !Z.pow_succ_r by lia. lia.
  - simpl. lia.
Qed.

Lemma digits2_pos_unique p k :
  2 ^ (k - 1) <= Zpos p < 2 ^ k -> Zpos (digits2_pos p) = k.
Proof.
  intros [Hlo Hhi]. pose proof (digits2_pos_bounds p) as [Dlo Dhi].
  assert (0 < k) as Hk.
  { destruct k as [|k|k]; [simpl in Hhi; lia | lia |].
    rewrite Z.pow_neg_r in Hhi by lia. lia. }
  destruct (Z.lt_trichotomy (Zpos (digits2_pos p)) k) as [Hlt|[Heq|Hgt]]; [|exact Heq|].
  - assert (2 ^ Zpos (digits2_pos p) <= 2 ^ (k - 1)) by (apply Z.pow_le_mono_r; lia). lia.
  - assert (2 ^ k <= 2 ^ (Zpos (digits2_pos p) - 1)) by (apply Z.pow_le_mono_r; lia). lia.
Qed.

Lemma shr_1_m mrs : 0 <= shr_m mrs -> shr_m (shr_1 mrs) = shr_m mrs / 2.
Proof.
  destruct mrs as [m r s]. simpl. intros Hm.
  rewrite <- Z.div2_div.
  destruct m as [|[p|p|]|p]; try reflexivity. lia.
Qed.

Lemma pow_xO p : 2 ^ Zpos p~0 = 2 ^ Zpos p * 2 ^ Zpos p.
Proof.
  replace (Zpos p~0) with (Zpos p + Zpos p) by lia.
  apply Z.pow_add_r; lia.
Qed.

Lemma pow_xI p : 2 ^ Zpos p~1 = 2 * (2 ^ Zpos p * 2 ^ Zpos p).
Proof.
  replace (Zpos p~1) with (Z.succ (Zpos p~0)) by lia.
  rewrite Z.pow_succ_r by lia. by rewrite pow_xO.
Qed.

Lemma iter_shr_m p : forall mrs,
  0 <= shr_m mrs -> shr_m (SpecFloat.iter_pos shr_1 p mrs) = shr_m mrs / 2 ^ Zpos p.
Proof.
  induction p as [p IH|p IH|]; intros mrs Hm; simpl SpecFloat.iter_pos.
  - assert (0 <= shr_m (shr_1 mrs)) as H1.
    { rewrite shr_1_m by done. apply Z.div_pos; lia. }
    assert (0 <= shr_m (SpecFloat.iter_pos shr_1 p (shr_1 mrs))) as H2.
    { rewrite IH by done. apply Z.div_pos; [done|]. apply Z.pow_pos_nonneg; lia. }
    rewrite IH, IH, shr_1_m by done.
    rewrite !Z.div_div by (try apply Z.pow_pos_nonneg; lia).
    f_equal. rewrite pow_xI. lia.
  - assert (0 <= shr_m (SpecFloat.iter_pos shr_1 p mrs)) as H2.
    { rewrite IH by done. apply Z.div_pos; [done|]. apply Z.pow_pos_nonneg; lia. }
    rewrite IH, IH by done.
    rewrite !Z.div_div by (try apply Z.pow_pos_nonneg; lia).
    f_equal. rewrite pow_xO. lia.
  - rewrite shr_1_m by done. reflexivity.
Qed.

Lemma round_nearest_even_range m l :
  m <= round_nearest_even m l <= m + 1.
Proof.
  destruct l as [|[]]; simpl; try lia. destruct (Z.even m); lia.
Qed.

Lemma round_nearest_even_exact m : round_nearest_even m loc_Exact = m.
Proof. reflexivity. Qed.

Lemma shr_m_of_loc m l : shr_m (shr_record_of_loc m l) = m.
Proof. by destruct l as [|[]]. Qed.

Lemma Zdigits2_unique m k : 0 < m -> 2 ^ (k - 1) <= m < 2 ^ k -> Zdigits2 m = k.
Proof.
  intros Hm Hk. destruct m as [|p|p]; try lia. simpl. by apply digits2_pos_unique.
Qed.

Lemma fexp_normal e : -1074 <= e - 53 -> fexp prec emax e = e - 53.
Proof. intros He. unfold fexp, emin, prec, emax. lia. Qed.

(** A mantissa of [d >= 53] digits is shifted right by [d - 53]. *)
Lemma shr_fexp_spec m e l d :
  2 ^ (d - 1) <= m < 2 ^ d -> 53 <= d -> -1074 <= d + e - 53 ->
  (shr_fexp prec emax m e l).2 = e + (d - 53) /\
  shr_m (shr_fexp prec emax m e l).1 = m / 2 ^ (d - 53) /\
  (d = 53 -> shr_fexp prec emax m e l = (shr_record_of_loc m l, e)).
Proof.
  intros Hm Hd He.
  assert (0 < m) as Hpos.
  { assert (0 < 2 ^ (d - 1)) by (apply Z.pow_pos_nonneg; lia). lia. }
  unfold shr_fexp. rewrite (Zdigits2_unique m d) by done.
  rewrite fexp_normal by lia.
  replace (d + e - 53 - e) with (d - 53) by lia.
  destruct (d - 53) as [|n|n] eqn:Hn; try lia; simpl.
  - split; [lia|]. split; [|done]. rewrite shr_m_of_loc. by rewrite Z.div_1_r.
  - split; [lia|]. split; [|lia]. rewrite iter_shr_m; rewrite shr_m_of_loc; [done|lia].
Qed.

Lemma pow_split a b : 0 <= a -> 0 <= b -> 2 ^ (a + b) = 2 ^ a * 2 ^ b.
Proof. intros. by apply Z.pow_add_r. Qed.

(** Rounding a positive mantissa of at least 53 digits: the result is a
    normal number, at most one unit of the last kept digit above. *)
Lemma round_aux_bound (mx : positive) (ex : Z) (lx : location) (d : Z) :
  2 ^ (d - 1) <= Zpos mx < 2 ^ d -> 53 <= d ->
  -1074 <= d + ex - 53 -> d + ex <= 1000 ->
  exists m e,
    binary_round_aux prec emax false (Zpos mx) ex lx = S754_finite false m e /\
    2 ^ 52 <= Zpos m < 2 ^ 53 /\
    ex <= e /\ e <= ex + d - 52 /\
    (Zpos m * 2 ^ (e - ex) <= Zpos mx + 2 ^ (d - 53)) /\
    (lx = loc_Exact -> d = 53 -> m = mx /\ e = ex).
Proof.
  intros Hmx Hd Hlo Hhi.
  destruct (shr_fexp_spec (Zpos mx) ex lx d Hmx Hd Hlo) as (He' & Hm' & Hex).
  unfold binary_round_aux.
  destruct (shr_fexp prec emax (Zpos mx) ex lx) as [mrs' e'] eqn:Hshr.
  simpl in He', Hm'. subst e'.
  set (n := d - 53) in *.
  assert (0 <= n) as Hn by lia.
  assert (0 < 2 ^ n) as Hpn by (apply Z.pow_pos_nonneg; lia).
  assert (2 ^ d = 2 ^ 53 * 2 ^ n) as Hd53.
  { replace d with (53 + n) by lia. apply pow_split; lia. }
  assert (2 ^ (d - 1) = 2 ^ 52 * 2 ^ n) as Hd52.
  { replace (d - 1) with (52 + n) by lia. apply pow_split; lia. }
  assert (2 ^ 52 <= shr_m mrs' < 2 ^ 53) as Hm'r.
  { rewrite Hm'. split.
    - apply Z.div_le_lower_bound; lia.
    - apply Z.div_lt_upper_bound; lia. }
  assert (shr_m mrs' * 2 ^ n <= Zpos mx) as Hfloor.
  { rewrite Hm'. rewrite Z.mul_comm. apply Z.mul_div_le. lia. }
  pose proof (round_nearest_even_range (shr_m mrs') (loc_of_shr_record mrs')) as Hr.
  set (m1 := round_nearest_even (shr_m mrs') (loc_of_shr_record mrs')) in *.
  change (2 ^ 52) with 4503599627370496 in *.
  change (2 ^ 53) with 9007199254740992 in *.
  destruct (Z.ltb_spec m1 9007199254740992) as [Hlt|Hge].
  - (* no carry *)
    destruct (shr_fexp_spec m1 (ex + n) loc_Exact 53) as (He2 & Hm2 & Hx2);
      [change (2 ^ (53 - 1)) with 4503599627370496;
       change (2 ^ 53) with 9007199254740992; lia | lia | lia |].
    rewrite (Hx2 eq_refl). simpl shr_m.
    destruct m1 as [|m|m] eqn:Hm1; try lia.
    assert ((ex + n <=? emax - prec) = true) as ->.
    { apply Z.leb_le. unfold emax, prec. lia. }
    exists m, (ex + n). split; [done|]. split; [lia|]. split; [lia|]. split; [lia|].
    split.
    + replace (ex + n - ex) with n by lia. nia.
    + intros -> Hd53'. injection (Hex Hd53') as Hrec _. subst mrs'.
      unfold m1 in Hm1. simpl in Hm1. split; [congruence | lia].
  - (* the rounded mantissa is 2^53 *)
    assert (m1 = 9007199254740992) as Hm1 by lia.
    destruct (shr_fexp_spec m1 (ex + n) loc_Exact 54) as (He2 & Hm2 & _);
      [change (2 ^ (54 - 1)) with 9007199254740992;
       change (2 ^ 54) with 18014398509481984; lia | lia | lia |].
    destruct (shr_fexp prec emax m1 (ex + n) loc_Exact) as [mrs'' e''].
    simpl in He2, Hm2. rewrite Hm2, Hm1.
    change (9007199254740992 / 2 ^ (54 - 53)) with (Zpos 4503599627370496).
    cbv iota. subst e''.
    assert ((ex + n + (54 - 53) <=? emax - prec) = true) as ->.
    { apply Z.leb_le. unfold emax, prec. lia. }
    exists 4503599627370496%positive, (ex + n + (54 - 53)).
    split; [done|]. split; [lia|]. split; [lia|]. split; [lia|]. split.
    + replace (ex + n + (54 - 53) - ex) with (n + 1) by lia.
      rewrite pow_split by lia. change (2 ^ 1) with 2. nia.
    + intros -> Hd53'. injection (Hex Hd53') as Hrec _. subst mrs'.
      unfold m1 in Hm1. simpl in Hm1, Hm'r. lia.
Qed.

Lemma pos_iter_xO p k : Zpos (Pos.iter xO p k) = Zpos p * 2 ^ Zpos k.
Proof.
  induction k as [|k IH] using Pos.peano_ind.
  - simpl. lia.
  - rewrite Pos.iter_succ, Pos2Z.inj_xO, IH, Pos2Z.inj_succ, Z.pow_succ_r by lia. lia.
Qed.

(** An integer below [2^53] converts exactly, to a normalised mantissa. *)
Lemma float_of_int_spec n :
  1 <= n < 2 ^ 53 ->
  exists m e,
    Prim2SF (float_of_int n) = S754_finite false m e /\
    2 ^ 52 <= Zpos m < 2 ^ 53 /\ -52 <= e <= 0 /\
    Zpos m = n * 2 ^ (- e).
Proof.
  intros Hn. unfold float_of_int. rewrite of_uint63_spec, Uint63.of_Z_spec.
  rewrite Z.mod_small by (change (2 ^ 53) with 9007199254740992 in Hn;
                          change wB with 9223372036854775808; lia).
  destruct n as [|p|p]; try lia. simpl binary_normalize. unfold binary_round.
  pose proof (digits2_pos_bounds p) as Hp.
  set (d := Zpos (digits2_pos p)) in *.
  assert (1 <= d <= 53) as Hd.
  { split; [unfold d; lia|].
    destruct (Z.le_gt_cases d 53) as [|Hgt]; [done|].
    assert (2 ^ 53 <= 2 ^ (d - 1)) by (apply Z.pow_le_mono_r; lia). lia. }
  rewrite Z.add_0_r, fexp_normal by lia.
  unfold shl_align. rewrite Z.sub_0_r.
  destruct (d - 53) as [|k|k] eqn:Hk; try lia.
  - (* 53 digits already *)
    destruct (round_aux_bound p 0 loc_Exact 53) as (m & e & Hr & Hm & _ & _ & _ & Hx);
      [replace 53 with d at 1 2 by lia; exact Hp | lia | lia | lia |].
    destruct (Hx eq_refl eq_refl) as [-> ->].
    exists p, 0. split; [exact Hr|]. split; [done|]. split; [lia|]. simpl. lia.
  - (* shifted left by 53 - d *)
    assert (Zpos k = 53 - d) as Hk' by lia.
    assert (2 ^ 53 = 2 ^ d * 2 ^ Zpos k) as H53.
    { rewrite <- pow_split by lia. f_equal. lia. }
    assert (2 ^ 52 = 2 ^ (d - 1) * 2 ^ Zpos k) as H52.
    { rewrite <- pow_split by lia. f_equal. lia. }
    assert (0 < 2 ^ Zpos k) by (apply Z.pow_pos_nonneg; lia).
    destruct (round_aux_bound (Pos.iter xO p k) (Zneg k) loc_Exact 53)
      as (m & e & Hr & Hm & _ & _ & _ & Hx);
      [rewrite pos_iter_xO; change (53 - 1) with 52; nia | lia | lia | lia |].
    destruct (Hx eq_refl eq_refl) as [-> ->].
    exists (Pos.iter xO p k), (Zneg k). split; [exact Hr|]. split; [done|].
    split; [lia|]. rewrite pos_iter_xO. simpl. done.
Qed.

(** [2048 / b] for a normalised [b = mb * 2^eb]: the quotient, scaled by
    [2^94], times [b]'s mantissa stays within [2^105 + 2 * mb]. *)
Lemma div_2048_spec (mb : positive) (eb : Z) :
  2 ^ 52 <= Zpos mb < 2 ^ 53 -> -52 <= eb <= 0 ->
  exists m e,
    SFdiv prec emax (S754_finite false 4503599627370496 (-41))
      (S754_finite false mb eb) = S754_finite false m e /\
    2 ^ 52 <= Zpos m < 2 ^ 53 /\
    -94 - eb <= e <= -92 - eb /\
    Zpos m * 2 ^ (e + 94 + eb) * Zpos mb <= 2 ^ 105 + 2 * Zpos mb.
Proof.
  intros Hmb Heb. unfold SFdiv, SFdiv_core_binary.
  rewrite (Zdigits2_unique (Zpos mb) 53) by (change (53 - 1) with 52; lia).
  change (Zdigits2 (Zpos 4503599627370496)) with 53.
  replace (53 + -41 - (53 + eb)) with (-41 - eb) by lia.
  rewrite fexp_normal by lia.
  rewrite Z.min_l by lia.
  replace (-41 - eb - (-41 - eb - 53)) with 53 by lia.
  change (Z.shiftl (Zpos 4503599627370496) 53) with (2 ^ 105).
  pose proof (Z.div_eucl_eq (2 ^ 105) (Zpos mb) ltac:(lia)) as Hdiv.
  pose proof (Z.mod_pos_bound (2 ^ 105) (Zpos mb) ltac:(lia)) as Hmod.
  unfold Z.modulo in Hmod.
  destruct (Z.div_eucl (2 ^ 105) (Zpos mb)) as [q r].
  change (2 ^ 52) with 4503599627370496 in *.
  change (2 ^ 53) with 9007199254740992 in *.
  change (2 ^ 105) with 40564819207303340847894502572032 in *.
  assert (4503599627370496 <= q <= 9007199254740992) as Hq by nia.
  destruct q as [|pq|pq]; try lia.
  destruct (Z.ltb_spec (Zpos pq) 9007199254740992) as [Hlt|Hge].
  - destruct (round_aux_bound pq (-41 - eb - 53) (new_location (Zpos mb) r) 53)
      as (m & e & Hr & Hm & He1 & He2 & Hv & _);
      [change (2 ^ (53 - 1)) with 4503599627370496;
       change (2 ^ 53) with 9007199254740992; lia | lia | lia | lia |].
    exists m, e. split; [exact Hr|]. split; [done|]. split; [lia|].
    replace (e + 94 + eb) with (e - (-41 - eb - 53)) by lia.
    change (2 ^ (53 - 53)) with 1 in Hv. nia.
  - destruct (round_aux_bound pq (-41 - eb - 53) (new_location (Zpos mb) r) 54)
      as (m & e & Hr & Hm & He1 & He2 & Hv & _);
      [change (2 ^ (54 - 1)) with 9007199254740992;
       change (2 ^ 54) with 18014398509481984; lia | lia | lia | lia |].
    exists m, e. split; [exact Hr|]. split; [done|]. split; [lia|].
    replace (e + 94 + eb) with (e - (-41 - eb - 53)) by lia.
    change (2 ^ (54 - 53)) with 2 in Hv. nia.
Qed.

(** The product of two normalised numbers, rounded. *)
Lemma mul_bound (mx mr : positive) (ex er : Z) :
  2 ^ 52 <= Zpos mx < 2 ^ 53 -> 2 ^ 52 <= Zpos mr < 2 ^ 53 ->
  -52 <= ex <= 0 -> -94 <= er <= -40 ->
  exists m e,
    SFmul prec emax (S754_finite false mx ex) (S754_finite false mr er)
      = S754_finite false m e /\
    2 ^ 52 <= Zpos m < 2 ^ 53 /\
    ex + er <= e /\
    Zpos m * 2 ^ (e - (ex + er)) <= Zpos mx * Zpos mr + 2 ^ 53.
Proof.
  intros Hmx Hmr Hex Her. unfold SFmul. simpl xorb.
  change (2 ^ 52) with 4503599627370496 in *.
  change (2 ^ 53) with 9007199254740992 in *.
  rewrite Pos2Z.inj_mul.
  assert (2 ^ 104 <= Zpos mx * Zpos mr < 2 ^ 106) as HP.
  { change (2 ^ 104) with (4503599627370496 * 4503599627370496).
    change (2 ^ 106) with (9007199254740992 * 9007199254740992). nia. }
  rewrite <- Pos2Z.inj_mul in *.
  destruct (Z.ltb_spec (Zpos (mx * mr)) (2 ^ 105)) as [Hlt|Hge].
  - destruct (round_aux_bound (mx * mr) (ex + er) loc_Exact 105)
      as (m & e & Hr & Hm & He1 & He2 & Hv & _);
      [change (105 - 1) with 104; lia | lia | lia | lia |].
    exists m, e. split; [exact Hr|]. split; [done|]. split; [lia|].
    change (2 ^ (105 - 53)) with 4503599627370496 in Hv. lia.
  - destruct (round_aux_bound (mx * mr) (ex + er) loc_Exact 106)
      as (m & e & Hr & Hm & He1 & He2 & Hv & _);
      [change (106 - 1) with 105; lia | lia | lia | lia |].
    exists m, e. split; [exact Hr|]. split; [done|]. split; [lia|].
    change (2 ^ (106 - 53)) with 9007199254740992 in Hv. lia.
Qed.

Lemma SFltb_scaled m1 e1 m2 e2 :
  2 ^ 52 <= Zpos m1 < 2 ^ 53 -> 2 ^ 52 <= Zpos m2 < 2 ^ 53 ->
  -94 <= e1 -> -94 <= e2 ->
  if SFltb (S754_finite false m1 e1) (S754_finite false m2 e2)
  then scaled m1 e1 < scaled m2 e2
  else scaled m2 e2 <= scaled m1 e1.
Proof.
  intros H1 H2 He1 He2. unfold SFltb, SFcompare, scaled.
  change (2 ^ 52) with 4503599627370496 in *.
  change (2 ^ 53) with 9007199254740992 in *.
  destruct (Z.compare_spec e1 e2) as [->|Hlt|Hgt].
  - change (Pos.compare_cont Eq m1 m2) with (Pos.compare m1 m2).
    assert (0 < 2 ^ (e2 + 94)) by (apply Z.pow_pos_nonneg; lia).
    destruct (Pos.compare_spec m1 m2) as [->|Hm|Hm]; nia.
  - assert (2 ^ (e2 + 94) = 2 ^ (e2 - e1) * 2 ^ (e1 + 94)) as ->.
    { rewrite <- pow_split by lia. f_equal. lia. }
    assert (0 < 2 ^ (e1 + 94)) by (apply Z.pow_pos_nonneg; lia).
    assert (2 ^ 1 <= 2 ^ (e2 - e1)) by (apply Z.pow_le_mono_r; lia).
    change (2 ^ 1) with 2 in *.
    assert (Zpos m1 < Zpos m2 * 2 ^ (e2 - e1)) as Hm by nia.
    rewrite Z.mul_assoc. by apply Z.mul_lt_mono_pos_r.
  - assert (2 ^ (e1 + 94) = 2 ^ (e1 - e2) * 2 ^ (e2 + 94)) as ->.
    { rewrite <- pow_split by lia. f_equal. lia. }
    assert (0 < 2 ^ (e2 + 94)) by (apply Z.pow_pos_nonneg; lia).
    assert (2 ^ 1 <= 2 ^ (e1 - e2)) by (apply Z.pow_le_mono_r; lia).
    change (2 ^ 1) with 2 in *.
    assert (Zpos m2 <= Zpos m1 * 2 ^ (e1 - e2)) as Hm by nia.
    rewrite Z.mul_assoc. apply Z.mul_le_mono_pos_r; lia.
Qed.

(** Truncating the rounded product [x * ratio], when [ratio * x] is within
    [2^-40] of 2048 (scaled by [2^94]: within [2^105 + 2^54]). *)
Lemma trunc_bound (x : Z) (mx mr m : positive) (ex er e : Z) :
  1 <= x -> Zpos mx = x * 2 ^ (- ex) -> -52 <= ex <= 0 -> -94 <= er <= -40 ->
  2 ^ 52 <= Zpos mx < 2 ^ 53 -> 2 ^ 52 <= Zpos mr < 2 ^ 53 ->
  2 ^ 52 <= Zpos m < 2 ^ 53 ->
  scaled mr er * x <= 2 ^ 105 + 2 ^ 54 ->
  ex + er <= e ->
  Zpos m * 2 ^ (e - (ex + er)) <= Zpos mx * Zpos mr + 2 ^ 53 ->
  0 <= Z.shiftl (Zpos m) e <= 2048.
Proof.
  intros Hx Hmx Hex Her Rmx Rmr Rm Hs He Hv. unfold scaled in Hs.
  set (t := er + 94) in *. set (u := - ex) in *.
  set (g := e - (ex + er)) in *.
  assert (0 <= t /\ 0 <= u /\ 0 <= g) as (Ht & Hu & Hg) by lia.
  assert (0 < 2 ^ t) as Pt by (apply Z.pow_pos_nonneg; lia).
  assert (0 < 2 ^ u) as Pu by (apply Z.pow_pos_nonneg; lia).
  assert (0 < 2 ^ g) as Pg by (apply Z.pow_pos_nonneg; lia).
  change (2 ^ 52) with 4503599627370496 in *.
  change (2 ^ 53) with 9007199254740992 in *.
  change (2 ^ 105 + 2 ^ 54) with 40564819207303358862293012054016 in *.
  (* the product of the mantissas, scaled *)
  assert (Zpos mx * Zpos mr * 2 ^ t <= 2 ^ u * 40564819207303358862293012054016) as HP.
  { rewrite Hmx. nia. }
  (* the exponents are close *)
  assert (t <= u + 1) as Htu.
  { assert (2 ^ (104 + t) < 2 ^ (u + 106)) as Hpow.
    { rewrite !pow_split by lia.
      change (2 ^ 104) with (4503599627370496 * 4503599627370496).
      change (2 ^ 106) with 81129638414606681695789005144064. nia. }
    apply Z.pow_lt_mono_r_iff in Hpow; lia. }
  assert (2 ^ (53 + t) <= 2 ^ u * 2 ^ 54) as H53.
  { rewrite <- pow_split by lia. apply Z.pow_le_mono_r; lia. }
  rewrite pow_split in H53 by lia.
  change (2 ^ 53) with 9007199254740992 in H53.
  change (2 ^ 54) with 18014398509481984 in H53.
  assert (Zpos m * 2 ^ g * 2 ^ t < 2049 * (2 ^ u * 2 ^ 94)) as Hfin.
  { change (2 ^ 94) with 19807040628566084398385987584. nia. }
  assert (2 ^ u * 2 ^ 94 = 2 ^ (u + 94)) as Hu94 by (rewrite pow_split; lia).
  rewrite Hu94 in Hfin.
  destruct (Z.le_gt_cases 0 e) as [Hpos|Hneg].
  - exfalso.
    assert (g + t = e + (u + 94)) as Hsum by lia.
    rewrite <- Z.mul_assoc, <- pow_split, Hsum, pow_split in Hfin by lia.
    assert (0 < 2 ^ (u + 94)) as Pa by (apply Z.pow_pos_nonneg; lia).
    assert (1 <= 2 ^ e) as Pb by (apply (Z.pow_le_mono_r 2 0 e); lia).
    rewrite Z.mul_assoc in Hfin.
    apply Z.mul_lt_mono_pos_r in Hfin; [|done].
    assert (Zpos m * 1 <= Zpos m * 2 ^ e) by (apply Z.mul_le_mono_nonneg_l; lia).
    lia.
  - rewrite Z.shiftl_div_pow2 by lia.
    assert (0 < 2 ^ (- e)) as Pe by (apply Z.pow_pos_nonneg; lia).
    split; [apply Z.div_pos; lia|].
    assert (u + 94 = (- e) + (g + t)) as Hsum by lia.
    rewrite <- Z.mul_assoc, <- pow_split, Hsum, (pow_split (- e)) in Hfin by lia.
    assert (0 < 2 ^ (g + t)) as Pgt by (apply Z.pow_pos_nonneg; lia).
    rewrite Z.mul_assoc in Hfin.
    apply Z.mul_lt_mono_pos_r in Hfin; [|done].
    assert (Zpos m / 2 ^ (- e) < 2049); [|lia].
    apply Z.div_lt_upper_bound; lia.
Qed.

(** [2048 / x] as a float: normalised, and within [2^-40] of [2048 / x]. *)
Lemma quotient_spec x :
  1 <= x < 2 ^ 53 ->
  exists m e,
    Prim2SF (float_of_int 2048 / float_of_int x) = S754_finite false m e /\
    2 ^ 52 <= Zpos m < 2 ^ 53 /\ -94 <= e <= -40 /\
    scaled m e * x <= 2 ^ 105 + 2 ^ 54.
Proof.
  intros Hx. destruct (float_of_int_spec x Hx) as (mb & eb & Hb & Rb & Eb & Vb).
  rewrite FloatAxioms.div_spec, Hb.
  change (Prim2SF (float_of_int 2048))
    with (S754_finite false 4503599627370496 (-41)).
  destruct (div_2048_spec mb eb Rb Eb) as (m & e & Hd & Rm & Em & Vm).
  exists m, e. split; [exact Hd|]. split; [done|]. split; [lia|].
  unfold scaled.
  assert (2 ^ (e + 94) = 2 ^ (e + 94 + eb) * 2 ^ (- eb)) as ->.
  { rewrite <- pow_split by lia. f_equal. lia. }
  change (2 ^ 53) with 9007199254740992 in *.
  change (2 ^ 54) with 18014398509481984.
  assert (Zpos m * (2 ^ (e + 94 + eb) * 2 ^ (- eb)) * x
          = Zpos m * 2 ^ (e + 94 + eb) * Zpos mb) as -> by (rewrite Vb; ring).
  lia.
Qed.

(** The ratio is a normalised float, and both dimensions times the ratio
    stay within [2^-40] of 2048. *)
Lemma ratio_spec w h :
  1 <= w < 2 ^ 53 -> 1 <= h < 2 ^ 53 ->
  exists m e,
    Prim2SF (ratio w h) = S754_finite false m e /\
    2 ^ 52 <= Zpos m < 2 ^ 53 /\ -94 <= e <= -40 /\
    scaled m e * w <= 2 ^ 105 + 2 ^ 54 /\
    scaled m e * h <= 2 ^ 105 + 2 ^ 54.
Proof.
  intros Hw Hh.
  destruct (quotient_spec w Hw) as (ma & ea & Ha & Ra & Ea & Va).
  destruct (quotient_spec h Hh) as (mb & eb & Hb & Rb & Eb & Vb).
  unfold ratio, py_min. rewrite FloatAxioms.ltb_spec, Hb, Ha.
  pose proof (SFltb_scaled mb eb ma ea Rb Ra ltac:(lia) ltac:(lia)) as Hcmp.
  destruct (SFltb (S754_finite false mb eb) (S754_finite false ma ea)).
  - exists mb, eb. split; [exact Hb|]. split; [exact Rb|]. split; [exact Eb|].
    split; [|exact Vb].
    assert (scaled mb eb * w <= scaled ma ea * w); [|lia].
    apply Z.mul_le_mono_nonneg_r; lia.
  - exists ma, ea. split; [exact Ha|]. split; [exact Ra|]. split; [exact Ea|].
    split; [exact Va|].
    assert (scaled ma ea * h <= scaled mb eb * h); [|lia].
    apply Z.mul_le_mono_nonneg_r; lia.
Qed.

(** One dimension: [int(x * ratio)] is defined and lies between 0 and 2048. *)
Lemma scaled_dimension x (r : float) m e :
  1 <= x < 2 ^ 53 ->
  Prim2SF r = S754_finite false m e ->
  2 ^ 52 <= Zpos m < 2 ^ 53 -> -94 <= e <= -40 ->
  scaled m e * x <= 2 ^ 105 + 2 ^ 54 ->
  exists n, int_of_float (float_of_int x * r) = Some n /\ 0 <= n <= 2048.
Proof.
  intros Hx Hr Rm Em Vm.
  destruct (float_of_int_spec x Hx) as (mx & ex & Hfx & Rx & Ex & Vx).
  destruct (mul_bound mx m ex e Rx Rm Ex Em) as (mp & ep & Hp & Rp & Ep & Vp).
  unfold int_of_float. rewrite FloatAxioms.mul_spec, Hfx, Hr.
  change SF64mul with (SFmul prec emax). rewrite Hp. simpl cond_Zopp.
  eexists. split; [reflexivity|].
  apply (trunc_bound x mx m mp ex e ep); try done. lia.
Qed.

Lemma new_size_bound w h :
  1 <= w < 2 ^ 53 -> 1 <= h < 2 ^ 53 ->
  exists nw nh,
    new_size w h = Some (nw, nh) /\
    int_of_float (float_of_int w * ratio w h) = Some nw /\
    int_of_float (float_of_int h * ratio w h) = Some nh /\
    0 <= nw <= 2048 /\ 0 <= nh <= 2048.
Proof.
  intros Hw Hh.
  destruct (ratio_spec w h Hw Hh) as (m & e & Hr & Rm & Em & Vw & Vh).
  destruct (scaled_dimension w _ m e Hw Hr Rm Em Vw) as (nw & Hnw & Bw).
  destruct (scaled_dimension h _ m e Hh Hr Rm Em Vh) as (nh & Hnh & Bh).
  exists nw, nh. unfold new_size. rewrite Hnw, Hnh. done.
Qed.




Example thin_image_is_refused :
  new_size 5000 1 = Some (2048, 0) /\
  upload_image (photo 5000 1) = inl Image_refused.
Proof. split; by vm_compute. Qed.

(** Rounding can cost the last pixel of both sides: the exact ratio would
    give 2048 by 1. *)
Example rounding_costs_the_last_pixel : new_size 100352 49 = Some (2047, 0).
Proof. by vm_compute. Qed.

(** An image with an alpha channel cannot be written as JPEG. *)
Example rgba_image_is_refused :
  upload_image {| size := (3000, 2000); mode := "RGBA" |} = inl Image_refused.
Proof. by vm_compute. Qed.

(** * Further properties of the models *)

Import ModelSpec.

(** ** Advertised formats *)

Lemma check_returns_iff `{!CaseMapping} m fs inputs s :
  follows_check m → mesh_path_is inputs s → exists_ fs (parse s) = inr true →
  returns (run m fs inputs) ↔
  lower (extension (parse s)) ∈ input_formats m ∧
  output_format_listed (output_formats m) inputs.
Proof.
  intros Hm Hs Hfs. specialize (Hm fs inputs).
  rewrite <- in_str_list_listed, <- existsb_eqb_elem_of,
    <- input_format_lower_extension.
  unfold check, returns in *. unfold mesh_path_is in Hs.
  rewrite Hs in Hm. simpl in Hm. rewrite Hfs in Hm.
  destruct (existsb _ (input_formats m)) eqn:Hin.
  - destruct (requested_output_format inputs) as [| | | |fmt| |] eqn:Hout;
      simpl in *;
      try (split; [intros [a Ha]; congruence | by intros [_ ?]]).
    destruct (existsb (String.eqb fmt) (output_formats m)) eqn:Hof; simpl in *.
    + split; [done | by intros _].
    + split; [intros [a Ha]; congruence | by intros [_ ?]].
  - simpl in Hm. split; [intros [a Ha]; congruence | by intros [? _]].
Qed.

(** X2: what [get_supported_formats] advertises is what [_process_request]
    accepts: for an existing mesh file, either model returns a result
    exactly when the lowercased extension is in the advertised ["input"]
    list and the requested output format in the advertised ["output"]
    list. *)
Theorem advertised_formats_are_the_accepted_ones `{!CaseMapping}
    (r : retopo_models.MeshRetopologyModel) (u : uv_models.UVUnwrappingModel)
    (fs : filesystem) (inputs : dict) (s : string) :
  mesh_path_is inputs s → exists_ fs (parse s) = inr true →
  (returns (retopo_models._process_request r fs inputs) ↔
   advertised (retopo_models.get_supported_formats r).1 inputs s) ∧
  (returns (uv_models._process_request u fs inputs) ↔
   advertised (uv_models.get_supported_formats u).1 inputs s).
Proof.
  intros Hs Hfs. split.
  - etrans; [exact (check_returns_iff (retopo r) fs inputs s
                      (retopo_follows_check r) Hs Hfs)|].
    unfold advertised, output_format_listed. simpl. split.
    + intros (Hin & fmt & Hfmt & Hout). by eexists _, _, fmt.
    + intros (ins & outs & fmt & [= <-] & [= <-] & Hin & Hfmt & Hout). eauto.
  - etrans; [exact (check_returns_iff (uv u) fs inputs s
                      (uv_follows_check u) Hs Hfs)|].
    unfold advertised, output_format_listed. simpl. split.
    + intros (Hin & fmt & Hfmt & Hout). by eexists _, _, fmt.
    + intros (ins & outs & fmt & [= <-] & [= <-] & Hin & Hfmt & Hout). eauto.
Qed.

Lemma advertised_formats_are_the_accepted_ones_witness :
  returns (retopo_models._process_request Samples.fastmesh Samples.two_meshes
             Samples.upper_case_input) ∧
  ¬ returns (uv_models._process_request Samples.partuv Samples.two_meshes
               Samples.upper_case_output).
Proof.
  destruct (advertised_formats_are_the_accepted_ones Samples.fastmesh
              Samples.partuv Samples.two_meshes Samples.upper_case_input
              "/data/Model.OBJ" eq_refl eq_refl) as [Hr _].
  destruct (advertised_formats_are_the_accepted_ones Samples.fastmesh
              Samples.partuv Samples.two_meshes Samples.upper_case_output
              "/data/Model.OBJ" eq_refl eq_refl) as [_ Hu].
  split.
  - apply Hr. exists ["obj"; "glb"; "ply"; "stl"], ["obj"; "glb"], "obj".
    repeat split; try reflexivity; apply list_elem_of_In; vm_compute; auto.
  - intros Hret. apply Hu in Hret as (ins & outs & fmt & _ & Ho & _ & Hf & Hin).
    injection Ho as <-. injection Hf as <-.
    apply list_elem_of_In in Hin. vm_compute in Hin. intuition discriminate.
Defined.

(** ** Which error is raised *)

Import CauseSpec.


(** ** Keys that are not read *)

Lemma get_delete_ne (inputs : dict) k k' default :
  k ≠ k' → get (delete k inputs) k' default = get inputs k' default.
Proof. intros Hne. unfold get. by rewrite lookup_delete_ne. Qed.

Lemma not_in_retopo_read_keys k :
  k ∉ retopo_read_keys →
  k ≠ "mesh_path" ∧ k ≠ "output_format" ∧ k ≠ "target_vertex_count".
Proof.
  unfold retopo_read_keys. rewrite !not_elem_of_cons. tauto.
Qed.

Lemma not_in_uv_read_keys k :
  k ∉ uv_read_keys →
  k ≠ "mesh_path" ∧ k ≠ "output_format" ∧ k ≠ "distortion_threshold" ∧
  k ≠ "pack_method".
Proof.
  unfold uv_read_keys. rewrite !not_elem_of_cons. tauto.
Qed.

(** X5: [_process_request] reads three keys in [MeshRetopologyModel]
    ([mesh_path], [output_format], [target_vertex_count]) and four in
    [UVUnwrappingModel] ([mesh_path], [output_format],
    [distortion_threshold], [pack_method]); setting or removing any other
    key, the documented [save_individual_parts] included, changes neither
    the result nor the error. *)
Theorem unread_keys_are_ignored `{!CaseMapping}
    (r : retopo_models.MeshRetopologyModel) (u : uv_models.UVUnwrappingModel)
    (fs : filesystem) (inputs : dict) (k : string) (v : value) :
  (k ∉ retopo_read_keys →
   retopo_models._process_request r fs (<[k := v]> inputs)
     = retopo_models._process_request r fs inputs ∧
   retopo_models._process_request r fs (delete k inputs)
     = retopo_models._process_request r fs inputs) ∧
  (k ∉ uv_read_keys →
   uv_models._process_request u fs (<[k := v]> inputs)
     = uv_models._process_request u fs inputs ∧
   uv_models._process_request u fs (delete k inputs)
     = uv_models._process_request u fs inputs).
Proof.
  split.
  - intros (H1 & H2 & H3)%not_in_retopo_read_keys.
    unfold retopo_models._process_request. split.
    + rewrite lookup_insert_ne by done. by rewrite !get_insert_ne by done.
    + rewrite lookup_delete_ne by done. by rewrite !get_delete_ne by done.
  - intros (H1 & H2 & H3 & H4)%not_in_uv_read_keys.
    unfold uv_models._process_request. split.
    + rewrite lookup_insert_ne by done. by rewrite !get_insert_ne by done.
    + rewrite lookup_delete_ne by done. by rewrite !get_delete_ne by done.
Qed.

Lemma unread_keys_are_ignored_witness :
  uv_models._process_request Samples.partuv Samples.two_meshes
    (<["save_individual_parts" := VBool true]> Samples.furry)
  = uv_models._process_request Samples.partuv Samples.two_meshes Samples.furry.
Proof.
  destruct (unread_keys_are_ignored Samples.fastmesh Samples.partuv
              Samples.two_meshes Samples.furry "save_individual_parts"
              (VBool true)) as [_ Hu].
  apply Hu. apply (bool_decide_unpack _). by vm_compute.
Defined.

(** ** The output file is not the input file *)

Import OutputSpec.

Lemma substring_app_l (a b : string) : substring 0 (String.length a) (a ++ b) = a.
Proof.
  induction a as [|x a IH]; simpl.
  - by destruct b.
  - change (String x a ++ b) with (String x (a ++ b)). simpl. by rewrite IH.
Qed.

(** The stem of a name [a ++ "." ++ fmt] with a non-empty [a] and an
    extension token [fmt]. *)
Lemma stem_of_name p a fmt :
  name p = a ++ "." ++ fmt → a ≠ "" → extension_token fmt → stem p = a.
Proof.
  intros Hn Ha (Hne & _ & Hdot). unfold stem. rewrite Hn.
  change (a ++ "." ++ fmt) with (a ++ String dot fmt).
  rewrite (rfind_app_last _ _ _ Hdot).
  assert (0 < len a) as Hpos
    by (destruct a; [done | rewrite len_String; unfold len; lia]).
  assert (0 < len fmt) as Hf
    by (destruct fmt; [done | rewrite len_String; unfold len; lia]).
  assert (len (a ++ String dot fmt) = len a + 1 + len fmt) as Hlen.
  { unfold len. rewrite length_app. simpl. lia. }
  rewrite Hlen.
  destruct (Z.ltb_spec 0 (len a)); [|lia].
  destruct (Z.ltb_spec (len a) (len a + 1 + len fmt - 1)); [|lia].
  simpl. unfold slice_to, len. rewrite Nat2Z.id. apply substring_app_l.
Qed.

Lemma prefixed_differs (prefix x : string) : prefix ≠ "" → x ≠ prefix ++ x.
Proof.
  intros Hp Heq. apply (f_equal String.length) in Heq.
  rewrite length_app in Heq. destruct prefix; [done|]. simpl in Heq. lia.
Qed.

Lemma beside_input_is_elsewhere a prefix s fmt out :
  extension_token fmt →
  name (parse out) = String a prefix ++ stem (parse s) ++ "." ++ fmt →
  parse out ≠ parse s.
Proof.
  intros Htok Hname Heq. rewrite Heq in Hname.
  rewrite <- append_assoc in Hname.
  apply stem_of_name in Hname; [|done|done].
  by apply (prefixed_differs (String a prefix)) in Hname.
Qed.

(** X6: for a validated request whose output format is an extension token
    (not empty, no separator, no dot), the [output_mesh_path] of either
    model is a different file from the input: the models never name their
    input as the place to write to. *)
Theorem output_is_not_the_input `{!CaseMapping}
    (r : retopo_models.MeshRetopologyModel) (u : uv_models.UVUnwrappingModel)
    (fs : filesystem) (inputs : dict) (p : Path) (fmt : string) :
  extension_token fmt →
  (validated (retopo r) fs inputs p fmt →
   output_is_elsewhere (retopo r) fs inputs p) ∧
  (validated (uv u) fs inputs p fmt →
   output_is_elsewhere (uv u) fs inputs p).
Proof.
  intros Htok. pose proof Htok as (_ & Hsep & _).
  split; intros Hv; pose proof Hv as ((s & Hs & ->) & _).
  - destruct (retopo_accepted r fs inputs _ fmt Hv) as (d & Hd & _ & Ho & _).
    destruct (output_path_beside_input "r" "etopo_" s fmt d eq_refl eq_refl
                eq_refl Ho) as (out & Ho' & _ & Hin & _).
    destruct (Hin Hsep) as [_ Hname].
    exists d, out. split; [done|]. split; [done|].
    assert (parse out ≠ parse s) as Hne
      by by apply (beside_input_is_elsewhere "r" "etopo_" s fmt).
    split; [done|]. intros s' Hs' ->.
    by rewrite (mesh_path_is_inj _ _ _ Hs Hs') in Hne.
  - destruct (uv_accepted u fs inputs _ fmt Hv) as (d & Hd & _ & Ho & _).
    destruct (output_path_beside_input "u" "v_" s fmt d eq_refl eq_refl
                eq_refl Ho) as (out & Ho' & _ & Hin & _).
    destruct (Hin Hsep) as [_ Hname].
    exists d, out. split; [done|]. split; [done|].
    assert (parse out ≠ parse s) as Hne
      by by apply (beside_input_is_elsewhere "u" "v_" s fmt).
    split; [done|]. intros s' Hs' ->.
    by rewrite (mesh_path_is_inj _ _ _ Hs Hs') in Hne.
Qed.

Lemma obj_is_extension_token : extension_token "obj".
Proof. by repeat split. Qed.

Lemma output_is_not_the_input_witness :
  output_is_elsewhere (retopo Samples.fastmesh) Samples.two_meshes Samples.furry
    (parse "assets/example_mesh/typical_creature_furry.obj").
Proof.
  destruct (output_is_not_the_input Samples.fastmesh Samples.partuv
              Samples.two_meshes Samples.furry
              (parse "assets/example_mesh/typical_creature_furry.obj") "obj"
              obj_is_extension_token) as [Hr _].
  apply Hr, furry_validated_retopo.
Defined.

(** ** From retopology to UV unwrapping *)

Lemma lstrip_dot_token fmt :
  extension_token fmt → lstrip dot ("." ++ fmt) = fmt.
Proof.
  intros (_ & _ & Hdot). change ("." ++ fmt) with (String dot fmt). simpl.
  destruct fmt as [|c fmt]; [done|]. simpl in *.
  apply orb_false_iff in Hdot as [-> _]. done.
Qed.

(** X7: the output of the retopology model can be fed to the UV model. When
    the output format is an extension token whose lowercase form is a
    supported input format of the UV model, then once the file named by
    [output_mesh_path] exists, a UV request on it returns a result exactly
    when its own output format is listed: it is never refused for its input
    format. *)
Theorem retopology_output_feeds_uv_unwrapping `{!CaseMapping}
    (r : retopo_models.MeshRetopologyModel) (u : uv_models.UVUnwrappingModel)
    (fs fs' : filesystem) (inputs inputs' : dict) (p : Path)
    (fmt out : string) (d : dict) :
  validated (retopo r) fs inputs p fmt →
  extension_token fmt →
  lower fmt ∈ uv_models.supported_input_formats u →
  retopo_models._process_request r fs inputs = inr d →
  d !! "output_mesh_path" = Some (VStr out) →
  mesh_path_is inputs' out →
  exists_ fs' (parse out) = inr true →
  returns (uv_models._process_request u fs' inputs') ↔
  output_format_listed (uv_models.supported_output_formats u) inputs'.
Proof.
  intros Hv Htok Hlow Hd Ho Hs' Hfs'.
  pose proof Hv as ((s & Hs & ->) & _).
  destruct (retopo_accepted r fs inputs _ fmt Hv) as (d0 & Hd0 & _ & Ho0 & _).
  rewrite Hd in Hd0. injection Hd0 as <-.
  destruct (output_path_beside_input "r" "etopo_" s fmt d eq_refl eq_refl
              eq_refl Ho0) as (out0 & Ho' & _ & _ & Hsuf).
  rewrite Ho in Ho'. injection Ho' as <-.
  etrans; [exact (check_returns_iff (uv u) fs' inputs' out
                    (uv_follows_check u) Hs' Hfs')|].
  unfold extension. rewrite (Hsuf Htok), (lstrip_dot_token fmt Htok). simpl.
  tauto.
Qed.

Lemma retopology_output_feeds_uv_unwrapping_witness :
  returns (uv_models._process_request Samples.partuv
             (λ path, if String.eqb path
                          "assets/example_mesh/retopo_typical_creature_furry.obj"
                      then Exists else Missing)
             (Samples.request [
                ("mesh_path",
                  VStr "assets/example_mesh/retopo_typical_creature_furry.obj")])).
Proof.
  pose proof furry_validated_retopo as Hv.
  destruct (retopo_accepted _ _ _ _ _ Hv) as (d & Hd & _ & Ho & _).
  apply (retopology_output_feeds_uv_unwrapping Samples.fastmesh Samples.partuv
           Samples.two_meshes _ Samples.furry _ _ "obj"
           "assets/example_mesh/retopo_typical_creature_furry.obj" d Hv
           obj_is_extension_token).
  - apply list_elem_of_In. vm_compute. auto.
  - exact Hd.
  - exact Ho.
  - reflexivity.
  - reflexivity.
  - exists "obj". split; [reflexivity|]. apply list_elem_of_In. vm_compute. auto.
Defined.

(** ** Widening the format lists *)

Lemma existsb_eqb_subseteq (x : string) (l l' : list string) :
  l ⊆ l' → existsb (String.eqb x) l = true → existsb (String.eqb x) l' = true.
Proof. rewrite !existsb_eqb_elem_of. intros Hsub Hx. by apply Hsub. Qed.

(** X8: widening the format lists never breaks a request. If a retopology
    (respectively UV) model returns a result for a request, a model with
    the same target (respectively threshold) whose format lists contain
    those of the first returns the same result. *)
Theorem wider_formats_keep_results `{!CaseMapping}
    (r r' : retopo_models.MeshRetopologyModel)
    (u u' : uv_models.UVUnwrappingModel)
    (fs : filesystem) (inputs : dict) (d : dict) :
  (retopo_models.supported_input_formats r
     ⊆ retopo_models.supported_input_formats r' →
   retopo_models.supported_output_formats r
     ⊆ retopo_models.supported_output_formats r' →
   retopo_models.target_vertex_count r = retopo_models.target_vertex_count r' →
   retopo_models._process_request r fs inputs = inr d →
   retopo_models._process_request r' fs inputs = inr d) ∧
  (uv_models.supported_input_formats u ⊆ uv_models.supported_input_formats u' →
   uv_models.supported_output_formats u
     ⊆ uv_models.supported_output_formats u' →
   uv_models.distortion_threshold u = uv_models.distortion_threshold u' →
   uv_models._process_request u fs inputs = inr d →
   uv_models._process_request u' fs inputs = inr d).
Proof.
  split.
  - intros Hi Ho Ht. unfold retopo_models._process_request, in_str_list.
    rewrite <- Ht.
    destruct (inputs !! "mesh_path") as [x|]; [|done]. simpl.
    destruct (of_value x) as [e|p]; [done|]. simpl.
    destruct (exists_ fs p) as [e|found]; [done|]. simpl.
    destruct (negb found); [done|].
    destruct (existsb _ (retopo_models.supported_input_formats r)) eqn:Hin;
      [|done].
    rewrite (existsb_eqb_subseteq _ _ _ Hi Hin). simpl.
    destruct (get inputs "output_format" (VStr "obj")) as [| | | |fmt| |];
      try done.
    destruct (existsb _ (retopo_models.supported_output_formats r)) eqn:Hof;
      [|done].
    by rewrite (existsb_eqb_subseteq _ _ _ Ho Hof).
  - intros Hi Ho Ht. unfold uv_models._process_request, in_str_list.
    rewrite <- Ht.
    destruct (inputs !! "mesh_path") as [x|]; [|done]. simpl.
    destruct (of_value x) as [e|p]; [done|]. simpl.
    destruct (exists_ fs p) as [e|found]; [done|]. simpl.
    destruct (negb found); [done|].
    destruct (existsb _ (uv_models.supported_input_formats u)) eqn:Hin;
      [|done].
    rewrite (existsb_eqb_subseteq _ _ _ Hi Hin). simpl.
    destruct (get inputs "output_format" (VStr "obj")) as [| | | |fmt| |];
      try done.
    destruct (existsb _ (uv_models.supported_output_formats u)) eqn:Hof;
      [|done].
    by rewrite (existsb_eqb_subseteq _ _ _ Ho Hof).
Qed.

(** ** Mesh paths without an extension *)




(** * Properties of the client script *)

Import client ClientSpec.

Lemma eq_str_true v s : eq_str v s = true → v = VStr s.
Proof.
  destruct v; simpl; try done. intros ->%String.eqb_eq. done.
Qed.

Lemma get_status_completed d :
  eq_str (get d "status" VNone) "completed" = true →
  d !! "status" = Some (VStr "completed").
Proof.
  intros Hs%eq_str_true. unfold get in Hs.
  destruct (d !! "status"); [by subst | done].
Qed.

(** ** Polling *)

(** Data that [poll_job] returns is a completed job's, and truthy. *)
Lemma poll_job_completed start timeout observations data :
  poll_job start timeout observations = Returned (Some data) →
  completed_job data ∧ truthy data = true.
Proof.
  induction observations as [|[now answer] obs IH]; [done|]. simpl.
  destruct (within start now timeout); [|done].
  destruct answer as [e|response]; [done|].
  destruct (status_code response =? 200); [|done].
  unfold json. destruct (json_body response) as [body|]; [|done].
  destruct body as [| | | | | |d]; simpl; try done.
  destruct (eq_str (get d "status" VNone) "completed") eqn:Hst.
  - intros [= <-]. pose proof (get_status_completed d Hst) as Hd.
    split; [by exists d|].
    simpl. apply negb_true_iff, bool_decide_eq_false. intros ->.
    by rewrite lookup_empty in Hd.
  - by destruct (eq_str (get d "status" VNone) "failed").
Qed.

(** X10: [poll_job] returns job data only for a completed job: the data is
    the JSON object of a reply with status 200, received while the clock
    was within the timeout, whose ["status"] is ["completed"]; it is then
    truthy, so [main] goes on to the download. *)
Theorem poll_job_returns_completed_jobs_only
    (start : float) (timeout : Z) (observations : list (float * reply))
    (data : value) :
  poll_job start timeout observations = Returned (Some data) →
  completed_job data ∧ truthy data = true ∧
  ∃ now response,
    (now, inr response) ∈ observations ∧
    within start now timeout = true ∧
    status_code response = 200 ∧ json_body response = Some data.
Proof.
  induction observations as [|[now answer] obs IH]; [done|]. simpl.
  destruct (within start now timeout) eqn:Hin; [|done].
  assert (poll_job start timeout obs = Returned (Some data) →
          completed_job data ∧ truthy data = true ∧
          ∃ now' response,
            (now', inr response) ∈ (now, answer) :: obs ∧
            within start now' timeout = true ∧
            status_code response = 200 ∧ json_body response = Some data)
    as IH'.
  { intros H. destruct (IH H) as (Hc & Ht & now' & response & Hel & Hrest).
    split; [done|]. split; [done|]. exists now', response.
    split; [by apply list_elem_of_further | done]. }
  destruct answer as [e|response]; [done|].
  destruct (Z.eqb_spec (status_code response) 200) as [H200|]; [|done].
  unfold json. destruct (json_body response) as [body|] eqn:Hbody; [|done].
  destruct body as [| | | | | |d]; simpl; try done.
  destruct (eq_str (get d "status" VNone) "completed") eqn:Hst.
  - intros [= <-]. pose proof (get_status_completed d Hst) as Hd.
    split; [by exists d|]. split.
    + simpl. apply negb_true_iff, bool_decide_eq_false. intros ->.
      by rewrite lookup_empty in Hd.
    + exists now, response. split; [by apply list_elem_of_here | done].
  - by destruct (eq_str (get d "status" VNone) "failed").
Qed.

Lemma poll_job_returns_completed_jobs_only_witness :
  completed_job (VDict (list_to_map [("status", VStr "completed");
                                     ("progress", VInt 100)])).
Proof.
  apply (poll_job_returns_completed_jobs_only 0%float 1200
           [(5%float, inr {| status_code := 500; json_body := None;
                             content := "" |});
            (15%float, inr {| status_code := 200;
                              json_body := Some (VDict (list_to_map
                                [("status", VStr "completed");
                                 ("progress", VInt 100)]));
                              content := "" |})]).
  reflexivity.
Defined.

Lemma poll_job_skips start timeout pre rest :
  Forall (keeps_polling start timeout) pre →
  poll_job start timeout (pre ++ rest) = poll_job start timeout rest.
Proof.
  induction 1 as [|[now answer] pre (Hin & response & Ha & Hkeep) _ IH]; [done|].
  simpl in *. rewrite Hin. subst answer.
  destruct Hkeep as [Hne|(d & Hbody & Hc & Hf)].
  - by destruct (Z.eqb_spec (status_code response) 200).
  - destruct (status_code response =? 200); [|done].
    unfold json. rewrite Hbody. simpl. by rewrite Hc, Hf.
Qed.

(** X11: [poll_job] is decided by the first observation that does not keep
    it polling, and asks nothing after it. Replies other than 200 and JSON
    objects whose status is neither ["completed"] nor ["failed"] keep it
    polling; then a clock past the timeout gives [None], a failed request
    is raised (also a refused connection), a ["failed"] status gives
    [None] and a ["completed"] one the data. *)
Theorem poll_job_first_decisive_observation
    (start : float) (timeout : Z) (pre rest : list (float * reply))
    (now : float) (answer : reply) :
  Forall (keeps_polling start timeout) pre →
  poll_job start timeout pre = Unfinished ∧
  (within start now timeout = false →
   poll_job start timeout (pre ++ (now, answer) :: rest) = Returned None) ∧
  (within start now timeout = true →
   (∀ e, answer = inl e →
      poll_job start timeout (pre ++ (now, answer) :: rest) = Raised e) ∧
   (∀ response d, answer = inr response → status_code response = 200 →
      json_body response = Some (VDict d) →
      (d !! "status" = Some (VStr "failed") →
       poll_job start timeout (pre ++ (now, answer) :: rest) = Returned None) ∧
      (d !! "status" = Some (VStr "completed") →
       poll_job start timeout (pre ++ (now, answer) :: rest)
       = Returned (Some (VDict d))))).
Proof.
  intros Hpre. split; [|split].
  - rewrite <- (app_nil_r pre) at 1. by rewrite poll_job_skips.
  - intros Hout. rewrite poll_job_skips by done. simpl. by rewrite Hout.
  - intros Hin. split.
    + intros e ->. rewrite poll_job_skips by done. simpl. by rewrite Hin.
    + intros response d -> H200 Hbody.
      rewrite !poll_job_skips by done. simpl. rewrite Hin, H200. simpl.
      unfold json. rewrite Hbody. simpl. unfold get.
      split; intros ->; reflexivity.
Qed.

Lemma poll_job_first_decisive_observation_witness :
  poll_job 0%float 1200
    [(5%float, inr {| status_code := 503; json_body := None; content := "" |});
     (15%float, inl ConnectionError);
     (25%float, inr {| status_code := 200;
                       json_body := Some (VDict {["status" := VStr "completed"]});
                       content := "" |})]
  = Raised ConnectionError.
Proof.
  destruct (poll_job_first_decisive_observation 0%float 1200
              [(5%float, inr {| status_code := 503; json_body := None;
                                content := "" |})]
              [(25%float, inr {| status_code := 200;
                                 json_body := Some (VDict {["status" := VStr "completed"]});
                                 content := "" |})]
              15%float (inl ConnectionError)) as (_ & _ & Hin).
  - constructor; [|constructor]. split; [reflexivity|].
    eexists. split; [reflexivity|]. by left.
  - destruct (Hin eq_refl) as [He _]. by apply He.
Defined.

(** ** Waiting for the server *)

Lemma wait_for_server_skips start timeout pre rest :
  Forall (keeps_waiting start timeout) pre →
  wait_for_server start timeout (pre ++ rest)
  = wait_for_server start timeout rest.
Proof.
  induction 1 as [|[now answer] pre (Hin & Hkeep) _ IH]; [done|].
  simpl in *. rewrite Hin.
  destruct Hkeep as [->|(response & -> & Hne)]; [done|].
  by destruct (Z.eqb_spec (status_code response) 200).
Qed.

(** X12: [wait_for_server] survives refused connections and answers other
    than 200: after any number of them within the timeout, the first 200
    gives [True], the first clock reading past the timeout gives [False],
    and only a failure other than [ConnectionError] is raised. *)
Theorem wait_for_server_first_decisive_observation
    (start : float) (timeout : Z) (pre rest : list (float * reply))
    (now : float) (answer : reply) :
  Forall (keeps_waiting start timeout) pre →
  wait_for_server start timeout pre = Unfinished ∧
  (within start now timeout = false →
   wait_for_server start timeout (pre ++ (now, answer) :: rest)
   = Returned false) ∧
  (within start now timeout = true →
   (∀ response, answer = inr response → status_code response = 200 →
      wait_for_server start timeout (pre ++ (now, answer) :: rest)
      = Returned true) ∧
   (∀ e, answer = inl e → e ≠ ConnectionError →
      wait_for_server start timeout (pre ++ (now, answer) :: rest)
      = Raised e)).
Proof.
  intros Hpre. split; [|split].
  - rewrite <- (app_nil_r pre) at 1. by rewrite wait_for_server_skips.
  - intros Hout. rewrite wait_for_server_skips by done. simpl. by rewrite Hout.
  - intros Hin. split.
    + intros response -> H200. rewrite wait_for_server_skips by done.
      simpl. by rewrite Hin, H200.
    + intros e -> Hne. rewrite wait_for_server_skips by done.
      simpl. rewrite Hin. by destruct e.
Qed.

Lemma wait_for_server_first_decisive_observation_witness :
  wait_for_server 0%float 60
    [(0%float, inl ConnectionError); (2%float, inl ConnectionError);
     (4%float, inr {| status_code := 200; json_body := None; content := "" |})]
  = Returned true.
Proof.
  destruct (wait_for_server_first_decisive_observation 0%float 60
              [(0%float, inl ConnectionError); (2%float, inl ConnectionError)]
              [] 4%float
              (inr {| status_code := 200; json_body := None; content := "" |}))
    as (_ & _ & Hin).
  - repeat (constructor; [split; [reflexivity | by left]|]). constructor.
  - destruct (Hin eq_refl) as [H200 _]. by apply (H200 _ eq_refl).
Defined.

(** ** Both loops end *)

(** X13: once the clock is read past the timeout, [wait_for_server] and
    [poll_job] have ended (with a result or an exception), whatever the
    server answered before; what would be observed later plays no part. *)
Theorem loops_end_at_the_timeout
    (start : float) (timeout : Z) (pre rest : list (float * reply))
    (o : float * reply) :
  out_of_time start timeout o →
  (wait_for_server start timeout (pre ++ o :: rest) ≠ Unfinished ∧
   wait_for_server start timeout (pre ++ o :: rest)
   = wait_for_server start timeout (pre ++ [o])) ∧
  (poll_job start timeout (pre ++ o :: rest) ≠ Unfinished ∧
   poll_job start timeout (pre ++ o :: rest)
   = poll_job start timeout (pre ++ [o])).
Proof.
  intros Hout. destruct o as [now answer]. unfold out_of_time in Hout.
  simpl in Hout. split.
  - induction pre as [|[now' answer'] pre [IH1 IH2]]; simpl.
    + by rewrite Hout.
    + destruct (within start now' timeout); [|done].
      destruct answer' as [[]|response]; try done.
      by destruct (status_code response =? 200).
  - induction pre as [|[now' answer'] pre [IH1 IH2]]; simpl.
    + by rewrite Hout.
    + destruct (within start now' timeout); [|done].
      destruct answer' as [e|response]; [done|].
      destruct (status_code response =? 200); [|done].
      destruct (json response) as [e|data]; [done|].
      destruct (data_get data "status" VNone) as [e|status]; [done|].
      destruct (eq_str status "completed"); [done|].
      by destruct (eq_str status "failed").
Qed.

Lemma loops_end_at_the_timeout_witness :
  poll_job 0%float 1200
    [(600%float, inr {| status_code := 200;
                        json_body := Some (VDict {["status" := VStr "processing"]});
                        content := "" |});
     (1200%float, inl ConnectionError)]
  ≠ Unfinished.
Proof.
  destruct (loops_end_at_the_timeout 0%float 1200
              [(600%float, inr {| status_code := 200;
                                  json_body := Some (VDict {["status" := VStr "processing"]});
                                  content := "" |})]
              [] (1200%float, inl ConnectionError) eq_refl) as [_ [Hp _]].
  exact Hp.
Defined.

(** ** The whole run *)

Import MainSpec.

(** X14: [main] reaches the download exactly when every earlier step
    succeeded: the server answered 200 within 60 seconds, the upload
    returned a truthy [file_id], the generation request carrying that
    [file_id] returned a truthy [job_id], and polling that job returned the
    data of a completed job; the download asks for the same job, and the
    file is written only on status 200. *)
Theorem main_downloads_after_every_step
    (w : world) (job_id : value) (saved : option string) :
  main w = Download job_id saved ↔ every_step_succeeded w job_id saved.
Proof.
  unfold main, every_step_succeeded, upload_and_get_id, generate_3d,
    download_result.
  split.
  - destruct (wait_for_server _ _ _) as [[]| |]; try done.
    intros H. split; [done|]. revert H.
    destruct (upload_image (image w)) as [e|posted]; [done|].
    destruct (field_of_reply "file_id" _) as [file_id| |] eqn:Hf; try done.
    destruct (truthy file_id) eqn:Tf; [|done]. simpl.
    destruct (field_of_reply "job_id" _) as [job| |] eqn:Hj; try done.
    destruct (truthy job) eqn:Tj; [|done]. simpl.
    destruct (poll_job _ _ _) as [[data|]| |] eqn:Hp; try done.
    destruct (poll_job_completed _ _ _ _ Hp) as (Hc & Td).
    rewrite Td.
    destruct (download_server w job) as [e|response] eqn:Hd; [done|].
    destruct (status_code response =? 200) eqn:H200; intros [= <- <-];
      exists posted, file_id, data, response; rewrite H200; by repeat split.
  - intros (Hw & posted & file_id & data & response & Hu & Hf & Tf & Hj & Tj
            & Hp & Hc & Hd & ->).
    rewrite Hw, Hu, Hf, Tf. simpl. rewrite Hj, Tj. simpl. rewrite Hp.
    destruct (poll_job_completed _ _ _ _ Hp) as (_ & Td).
    rewrite Td, Hd. by destruct (status_code response =? 200).
Qed.

(** * The larger side after resizing *)

(** Rounding loses less than one unit of the last kept digit. *)
Lemma round_aux_lower (mx : positive) (ex : Z) (lx : location) (d : Z) :
  2 ^ (d - 1) <= Zpos mx < 2 ^ d -> 53 <= d ->
  -1074 <= d + ex - 53 -> d + ex <= 1000 ->
  exists m e,
    binary_round_aux prec emax false (Zpos mx) ex lx = S754_finite false m e /\
    ex <= e /\
    Zpos mx - 2 ^ (d - 53) < Zpos m * 2 ^ (e - ex).
Proof.
  intros Hmx Hd Hlo Hhi.
  destruct (shr_fexp_spec (Zpos mx) ex lx d Hmx Hd Hlo) as (He' & Hm' & Hex).
  unfold binary_round_aux.
  destruct (shr_fexp prec emax (Zpos mx) ex lx) as [mrs' e'] eqn:Hshr.
  simpl in He', Hm'. subst e'.
  set (n := d - 53) in *.
  assert (0 <= n) as Hn by lia.
  assert (0 < 2 ^ n) as Hpn by (apply Z.pow_pos_nonneg; lia).
  assert (2 ^ d = 2 ^ 53 * 2 ^ n) as Hd53.
  { replace d with (53 + n) by lia. apply pow_split; lia. }
  assert (2 ^ (d - 1) = 2 ^ 52 * 2 ^ n) as Hd52.
  { replace (d - 1) with (52 + n) by lia. apply pow_split; lia. }
  assert (2 ^ 52 <= shr_m mrs' < 2 ^ 53) as Hm'r.
  { rewrite Hm'. split.
    - apply Z.div_le_lower_bound; lia.
    - apply Z.div_lt_upper_bound; lia. }
  assert (Zpos mx < (shr_m mrs' + 1) * 2 ^ n) as Hfloor.
  { rewrite Hm'.
    pose proof (Z.div_mod (Zpos mx) (2 ^ n) ltac:(lia)) as Hdm.
    pose proof (Z.mod_pos_bound (Zpos mx) (2 ^ n) Hpn) as Hmod. lia. }
  pose proof (round_nearest_even_range (shr_m mrs') (loc_of_shr_record mrs')) as Hr.
  set (m1 := round_nearest_even (shr_m mrs') (loc_of_shr_record mrs')) in *.
  change (2 ^ 52) with 4503599627370496 in *.
  change (2 ^ 53) with 9007199254740992 in *.
  assert (Zpos mx - 2 ^ n < m1 * 2 ^ n) as Hm1n.
  { assert (shr_m mrs' * 2 ^ n <= m1 * 2 ^ n)
      by (apply Z.mul_le_mono_nonneg_r; lia). lia. }
  destruct (Z.ltb_spec m1 9007199254740992) as [Hlt|Hge].
  - destruct (shr_fexp_spec m1 (ex + n) loc_Exact 53) as (He2 & Hm2 & Hx2);
      [change (2 ^ (53 - 1)) with 4503599627370496;
       change (2 ^ 53) with 9007199254740992; lia | lia | lia |].
    rewrite (Hx2 eq_refl). simpl shr_m.
    destruct m1 as [|m|m] eqn:Hm1; try lia.
    assert ((ex + n <=? emax - prec) = true) as ->.
    { apply Z.leb_le. unfold emax, prec. lia. }
    exists m, (ex + n). split; [done|]. split; [lia|].
    by replace (ex + n - ex) with n by lia.
  - assert (m1 = 9007199254740992) as Hm1 by lia.
    destruct (shr_fexp_spec m1 (ex + n) loc_Exact 54) as (He2 & Hm2 & _);
      [change (2 ^ (54 - 1)) with 9007199254740992;
       change (2 ^ 54) with 18014398509481984; lia | lia | lia |].
    destruct (shr_fexp prec emax m1 (ex + n) loc_Exact) as [mrs'' e''].
    simpl in He2, Hm2. rewrite Hm2, Hm1.
    change (9007199254740992 / 2 ^ (54 - 53)) with (Zpos 4503599627370496).
    cbv iota. subst e''.
    assert ((ex + n + (54 - 53) <=? emax - prec) = true) as ->.
    { apply Z.leb_le. unfold emax, prec. lia. }
    exists 4503599627370496%positive, (ex + n + (54 - 53)).
    split; [done|]. split; [lia|].
    replace (ex + n + (54 - 53) - ex) with (n + 1) by lia.
    rewrite pow_split by lia. change (2 ^ 1) with 2.
    rewrite Hm1 in Hm1n. lia.
Qed.

(** [2048 / b] from below: the rounded quotient loses less than two units. *)
Lemma div_2048_lower (mb : positive) (eb : Z) m e :
  2 ^ 52 <= Zpos mb < 2 ^ 53 -> -52 <= eb <= 0 ->
  SFdiv prec emax (S754_finite false 4503599627370496 (-41))
    (S754_finite false mb eb) = S754_finite false m e ->
  2 ^ 105 - 2 * Zpos mb < Zpos m * 2 ^ (e + 94 + eb) * Zpos mb.
Proof.
  intros Hmb Heb. unfold SFdiv, SFdiv_core_binary.
  rewrite (Zdigits2_unique (Zpos mb) 53) by (change (53 - 1) with 52; lia).
  change (Zdigits2 (Zpos 4503599627370496)) with 53.
  replace (53 + -41 - (53 + eb)) with (-41 - eb) by lia.
  rewrite fexp_normal by lia.
  rewrite Z.min_l by lia.
  replace (-41 - eb - (-41 - eb - 53)) with 53 by lia.
  change (Z.shiftl (Zpos 4503599627370496) 53) with (2 ^ 105).
  pose proof (Z.div_eucl_eq (2 ^ 105) (Zpos mb) ltac:(lia)) as Hdiv.
  pose proof (Z.mod_pos_bound (2 ^ 105) (Zpos mb) ltac:(lia)) as Hmod.
  unfold Z.modulo in Hmod.
  destruct (Z.div_eucl (2 ^ 105) (Zpos mb)) as [q r].
  change (2 ^ 52) with 4503599627370496 in *.
  change (2 ^ 53) with 9007199254740992 in *.
  change (2 ^ 105) with 40564819207303340847894502572032 in *.
  assert (4503599627370496 <= q <= 9007199254740992) as Hq by nia.
  destruct q as [|pq|pq]; try lia.
  intros Hres.
  destruct (Z.ltb_spec (Zpos pq) 9007199254740992) as [Hlt|Hge].
  - destruct (round_aux_lower pq (-41 - eb - 53) (new_location (Zpos mb) r) 53)
      as (m' & e' & Hr & He & Hv);
      [change (2 ^ (53 - 1)) with 4503599627370496;
       change (2 ^ 53) with 9007199254740992; lia | lia | lia | lia |].
    assert (S754_finite false m' e' = S754_finite false m e) as Heq
        by (rewrite <- Hr; exact Hres).
    injection Heq as -> ->.
    replace (e + 94 + eb) with (e - (-41 - eb - 53)) by lia.
    change (2 ^ (53 - 53)) with 1 in Hv.
    assert (Zpos pq * Zpos mb <= Zpos m * 2 ^ (e - (-41 - eb - 53)) * Zpos mb)
      by (apply Z.mul_le_mono_nonneg_r; lia).
    lia.
  - destruct (round_aux_lower pq (-41 - eb - 53) (new_location (Zpos mb) r) 54)
      as (m' & e' & Hr & He & Hv);
      [change (2 ^ (54 - 1)) with 9007199254740992;
       change (2 ^ 54) with 18014398509481984; lia | lia | lia | lia |].
    assert (S754_finite false m' e' = S754_finite false m e) as Heq
        by (rewrite <- Hr; exact Hres).
    injection Heq as -> ->.
    replace (e + 94 + eb) with (e - (-41 - eb - 53)) by lia.
    change (2 ^ (54 - 53)) with 2 in Hv.
    assert ((Zpos pq - 1) * Zpos mb <= Zpos m * 2 ^ (e - (-41 - eb - 53)) * Zpos mb)
      by (apply Z.mul_le_mono_nonneg_r; lia).
    lia.
Qed.

(** The rounded product of two normalised numbers, from below. *)
Lemma mul_lower (mx mr : positive) (ex er : Z) m e :
  2 ^ 52 <= Zpos mx < 2 ^ 53 -> 2 ^ 52 <= Zpos mr < 2 ^ 53 ->
  -52 <= ex <= 0 -> -94 <= er <= -40 ->
  SFmul prec emax (S754_finite false mx ex) (S754_finite false mr er)
    = S754_finite false m e ->
  Zpos mx * Zpos mr - 2 ^ 53 < Zpos m * 2 ^ (e - (ex + er)).
Proof.
  intros Hmx Hmr Hex Her. unfold SFmul. simpl xorb.
  change (2 ^ 52) with 4503599627370496 in *.
  change (2 ^ 53) with 9007199254740992 in *.
  rewrite Pos2Z.inj_mul.
  assert (2 ^ 104 <= Zpos mx * Zpos mr < 2 ^ 106) as HP.
  { change (2 ^ 104) with (4503599627370496 * 4503599627370496).
    change (2 ^ 106) with (9007199254740992 * 9007199254740992). nia. }
  rewrite <- Pos2Z.inj_mul in *.
  intros Hres.
  destruct (Z.ltb_spec (Zpos (mx * mr)) (2 ^ 105)) as [Hlt|Hge].
  - destruct (round_aux_lower (mx * mr) (ex + er) loc_Exact 105)
      as (m' & e' & Hr & He & Hv);
      [change (105 - 1) with 104; lia | lia | lia | lia |].
    assert (S754_finite false m' e' = S754_finite false m e) as Heq
        by (rewrite <- Hr; exact Hres).
    injection Heq as -> ->.
    change (2 ^ (105 - 53)) with 4503599627370496 in Hv. lia.
  - destruct (round_aux_lower (mx * mr) (ex + er) loc_Exact 106)
      as (m' & e' & Hr & He & Hv);
      [change (106 - 1) with 105; lia | lia | lia | lia |].
    assert (S754_finite false m' e' = S754_finite false m e) as Heq
        by (rewrite <- Hr; exact Hres).
    injection Heq as -> ->.
    change (2 ^ (106 - 53)) with 9007199254740992 in Hv. lia.
Qed.

(** [2048 / x] as a float is within [2^-40] of [2048 / x] from below too. *)
Lemma quotient_lower x m e :
  1 <= x < 2 ^ 53 ->
  Prim2SF (float_of_int 2048 / float_of_int x) = S754_finite false m e ->
  2 ^ 105 - 2 ^ 54 < scaled m e * x.
Proof.
  intros Hx. destruct (float_of_int_spec x Hx) as (mb & eb & Hb & Rb & Eb & Vb).
  rewrite FloatAxioms.div_spec, Hb.
  change (Prim2SF (float_of_int 2048))
    with (S754_finite false 4503599627370496 (-41)).
  intros Hres.
  destruct (div_2048_spec mb eb Rb Eb) as (m' & e' & Hd & Rm & Em & _).
  assert (S754_finite false m' e' = S754_finite false m e) as Heq
      by (rewrite <- Hd; exact Hres).
  injection Heq as -> ->.
  pose proof (div_2048_lower mb eb m e Rb Eb Hres) as Hl.
  unfold scaled.
  assert (2 ^ (e + 94) = 2 ^ (e + 94 + eb) * 2 ^ (- eb)) as ->.
  { rewrite <- pow_split by lia. f_equal. lia. }
  change (2 ^ 53) with 9007199254740992 in *.
  change (2 ^ 54) with 18014398509481984.
  assert (Zpos m * (2 ^ (e + 94 + eb) * 2 ^ (- eb)) * x
          = Zpos m * 2 ^ (e + 94 + eb) * Zpos mb) as -> by (rewrite Vb; ring).
  lia.
Qed.

(** The larger dimension times the ratio is within [2^-40] of 2048. *)
Lemma ratio_lower w h m e :
  1 <= w < 2 ^ 53 -> 1 <= h < 2 ^ 53 ->
  Prim2SF (ratio w h) = S754_finite false m e ->
  2 ^ 105 - 2 ^ 54 < scaled m e * Z.max w h.
Proof.
  intros Hw Hh. unfold ratio, py_min.
  assert (0 <= scaled m e) as Hs.
  { unfold scaled. apply Z.mul_nonneg_nonneg; [lia|]. apply Z.pow_nonneg. lia. }
  destruct (PrimFloat.ltb _ _); intros Hr.
  - pose proof (quotient_lower h m e Hh Hr) as Hl.
    assert (scaled m e * h <= scaled m e * Z.max w h)
      by (apply Z.mul_le_mono_nonneg_l; lia).
    lia.
  - pose proof (quotient_lower w m e Hw Hr) as Hl.
    assert (scaled m e * w <= scaled m e * Z.max w h)
      by (apply Z.mul_le_mono_nonneg_l; lia).
    lia.
Qed.

(** Truncating the rounded product [x * ratio], when [ratio * x] is within
    [2^-40] of 2048 on both sides, leaves at least 2047. *)
Lemma trunc_lower (x : Z) (mx mr m : positive) (ex er e : Z) :
  1 <= x -> Zpos mx = x * 2 ^ (- ex) -> -52 <= ex <= 0 -> -94 <= er <= -40 ->
  2 ^ 52 <= Zpos mx < 2 ^ 53 -> 2 ^ 52 <= Zpos mr < 2 ^ 53 ->
  2 ^ 52 <= Zpos m < 2 ^ 53 ->
  scaled mr er * x <= 2 ^ 105 + 2 ^ 54 ->
  2 ^ 105 - 2 ^ 54 < scaled mr er * x ->
  ex + er <= e ->
  Zpos mx * Zpos mr - 2 ^ 53 < Zpos m * 2 ^ (e - (ex + er)) ->
  2047 <= Z.shiftl (Zpos m) e.
Proof.
  intros Hx Hmx Hex Her Rmx Rmr Rm Hs Hl He Hv. unfold scaled in Hs, Hl.
  set (t := er + 94) in *. set (u := - ex) in *.
  set (g := e - (ex + er)) in *.
  assert (0 <= t /\ 0 <= u /\ 0 <= g) as (Ht & Hu & Hg) by lia.
  assert (0 < 2 ^ t) as Pt by (apply Z.pow_pos_nonneg; lia).
  assert (0 < 2 ^ u) as Pu by (apply Z.pow_pos_nonneg; lia).
  assert (0 < 2 ^ g) as Pg by (apply Z.pow_pos_nonneg; lia).
  change (2 ^ 52) with 4503599627370496 in *.
  change (2 ^ 53) with 9007199254740992 in *.
  change (2 ^ 105 + 2 ^ 54) with 40564819207303358862293012054016 in *.
  change (2 ^ 105 - 2 ^ 54) with 40564819207303322833495993090048 in *.
  destruct (Z.le_gt_cases 0 e) as [Hpos|Hneg].
  - rewrite Z.shiftl_mul_pow2 by lia.
    assert (1 <= 2 ^ e) as Pb by (apply (Z.pow_le_mono_r 2 0 e); lia).
    assert (Zpos m * 1 <= Zpos m * 2 ^ e) by (apply Z.mul_le_mono_nonneg_l; lia).
    lia.
  - (* the product of the mantissas, scaled *)
    assert (Zpos mx * Zpos mr * 2 ^ t = 2 ^ u * (Zpos mr * 2 ^ t * x)) as HP
        by (rewrite Hmx; ring).
    assert (2 ^ u * (Zpos mr * 2 ^ t * x)
            <= 2 ^ u * 40564819207303358862293012054016) as HPu
        by (apply Z.mul_le_mono_nonneg_l; lia).
    assert (2 ^ u * 40564819207303322833495993090048
            < 2 ^ u * (Zpos mr * 2 ^ t * x)) as HPl
        by (apply Z.mul_lt_mono_pos_l; lia).
    (* the exponents are close *)
    assert (t <= u + 1) as Htu.
    { assert (2 ^ (104 + t) < 2 ^ (u + 106)) as Hpow.
      { rewrite !pow_split by lia.
        change (2 ^ 104) with (4503599627370496 * 4503599627370496).
        change (2 ^ 106) with 81129638414606681695789005144064. nia. }
      apply Z.pow_lt_mono_r_iff in Hpow; lia. }
    assert (2 ^ (53 + t) <= 2 ^ u * 2 ^ 54) as H53.
    { rewrite <- pow_split by lia. apply Z.pow_le_mono_r; lia. }
    rewrite pow_split in H53 by lia.
    change (2 ^ 53) with 9007199254740992 in H53.
    change (2 ^ 54) with 18014398509481984 in H53.
    assert ((Zpos mx * Zpos mr - 9007199254740992) * 2 ^ t
            < Zpos m * 2 ^ g * 2 ^ t) as Hvt
        by (apply Z.mul_lt_mono_pos_r; lia).
    assert (2047 * (2 ^ u * 2 ^ 94) < Zpos m * 2 ^ g * 2 ^ t) as Hfin.
    { change (2 ^ 94) with 19807040628566084398385987584. lia. }
    assert (2 ^ u * 2 ^ 94 = 2 ^ (u + 94)) as Hu94 by (rewrite pow_split; lia).
    rewrite Hu94 in Hfin.
    rewrite Z.shiftl_div_pow2 by lia.
    assert (0 < 2 ^ (- e)) as Pe by (apply Z.pow_pos_nonneg; lia).
    assert (u + 94 = (- e) + (g + t)) as Hsum by lia.
    rewrite <- (Z.mul_assoc (Zpos m)), <- (pow_split g t), Hsum,
      (pow_split (- e)) in Hfin by lia.
    assert (0 < 2 ^ (g + t)) as Pgt by (apply Z.pow_pos_nonneg; lia).
    rewrite Z.mul_assoc in Hfin.
    apply Z.mul_lt_mono_pos_r in Hfin; [|done].
    apply Z.div_le_lower_bound; lia.
Qed.

(** One dimension from below: [int(x * ratio)] is at least 2047 when
    [ratio * x] is that close to 2048. *)
Lemma scaled_dimension_lower x (r : float) m e n :
  1 <= x < 2 ^ 53 ->
  Prim2SF r = S754_finite false m e ->
  2 ^ 52 <= Zpos m < 2 ^ 53 -> -94 <= e <= -40 ->
  scaled m e * x <= 2 ^ 105 + 2 ^ 54 ->
  2 ^ 105 - 2 ^ 54 < scaled m e * x ->
  int_of_float (float_of_int x * r) = Some n ->
  2047 <= n.
Proof.
  intros Hx Hr Rm Em Vm Lm.
  destruct (float_of_int_spec x Hx) as (mx & ex & Hfx & Rx & Ex & Vx).
  destruct (mul_bound mx m ex e Rx Rm Ex Em) as (mp & ep & Hp & Rp & Ep & Vp).
  pose proof (mul_lower mx m ex e mp ep Rx Rm Ex Em Hp) as Lp.
  unfold int_of_float. rewrite FloatAxioms.mul_spec, Hfx, Hr.
  change SF64mul with (SFmul prec emax). rewrite Hp. simpl cond_Zopp.
  intros [= <-].
  apply (trunc_lower x mx m mp ex e ep); try done. lia.
Qed.

(** X15: the new size that [upload_image] computes for an image keeps the
    larger side at 2047 or 2048: scaling by the ratio and truncating loses
    at most one pixel of the limit. *)
Theorem resized_larger_side_reaches_limit (width height : Z) :
  1 <= width < 2 ^ 53 -> 1 <= height < 2 ^ 53 ->
  exists w h,
    new_size width height = Some (w, h) /\
    (height <= width -> 2047 <= w <= 2048) /\
    (width <= height -> 2047 <= h <= 2048).
Proof.
  intros Hw Hh.
  destruct (ratio_spec width height Hw Hh) as (m & e & Hr & Rm & Em & Vw & Vh).
  pose proof (ratio_lower width height m e Hw Hh Hr) as Hl.
  destruct (new_size_bound width height Hw Hh)
    as (w & h & Hsize & Hnw & Hnh & Bw & Bh).
  exists w, h. split; [done|]. split; intros Hle.
  - split; [|lia].
    apply (scaled_dimension_lower width _ m e w Hw Hr Rm Em Vw); [|done].
    by rewrite Z.max_l in Hl by lia.
  - split; [|lia].
    apply (scaled_dimension_lower height _ m e h Hh Hr Rm Em Vh); [|done].
    by rewrite Z.max_r in Hl by lia.
Qed.

Lemma resized_larger_side_reaches_limit_witness :
  exists w h,
    new_size 2215 100 = Some (w, h) /\
    (100 <= 2215 -> 2047 <= w <= 2048) /\
    (2215 <= 100 -> 2047 <= h <= 2048).
Proof.
  apply (resized_larger_side_reaches_limit 2215 100);
    change (2 ^ 53) with 9007199254740992; lia.
Defined.
